(** * Fingerprint sensor example for the Raspberry Pi 5: composite protocols

    A shallow embedding of [examples/fingerprint_pi5.py]: the
    identification routine [get_fingerprint], the enrollment routine
    [enroll_finger] and the three menu branches of [main] that talk to
    the sensor.  The sensor object [finger] and the LED line are external;
    a run is described by the trace of events the program performs
    against a stream of sensor replies. *)

From Stdlib Require Import ZArith List Bool Lia.
Import ListNotations.
Open Scope Z_scope.

(** ** Status vocabulary *)

(** Modelled from the spec: the status constants of module
    [adafruit_fingerprint] ([OK], [NOFINGER], ...), which the example
    imports and compares against but which is not part of the sources.
    The spec calls StatusCode a closed enumeration with a fixed
    vocabulary, so the constants are taken as parameters that are
    pairwise distinct. *)
Class StatusCodes : Type := {
  OK : Z;
  NOFINGER : Z;
  IMAGEFAIL : Z;
  IMAGEMESS : Z;
  FEATUREFAIL : Z;
  INVALIDIMAGE : Z;
  ENROLLMISMATCH : Z;
  BADLOCATION : Z;
  FLASHERR : Z;
  codes_distinct :
    NoDup [OK; NOFINGER; IMAGEFAIL; IMAGEMESS; FEATUREFAIL; INVALIDIMAGE;
           ENROLLMISMATCH; BADLOCATION; FLASHERR]
}.

Lemma as608_distinct :
  NoDup [0x00; 0x02; 0x03; 0x06; 0x07; 0x15; 0x0A; 0x0B; 0x18].
Proof.
  repeat (constructor; [ cbn; intuition discriminate | ]).
  constructor.
Qed.

(** The confirmation codes of the AS608 / R30x sensor family. *)
#[export] Instance AS608 : StatusCodes := {|
  OK := 0x00;
  NOFINGER := 0x02;
  IMAGEFAIL := 0x03;
  IMAGEMESS := 0x06;
  FEATUREFAIL := 0x07;
  INVALIDIMAGE := 0x15;
  ENROLLMISMATCH := 0x0A;
  BADLOCATION := 0x0B;
  FLASHERR := 0x18;
  codes_distinct := as608_distinct
|}.

(** ** Events *)

(** The sensor primitives the example invokes on [finger]. *)
Inductive cmd : Type :=
| GetImage                      (* finger.get_image() *)
| Image2Tz (slot : Z)           (* finger.image_2_tz(slot) *)
| FingerSearch                  (* finger.finger_search() *)
| CreateModel                   (* finger.create_model() *)
| StoreModel (location : Z)     (* finger.store_model(location) *)
| DeleteModel (location : Z).   (* finger.delete_model(location) *)

(** What one round trip gives back: a status integer, or a Python
    exception raised inside the library call. *)
Inductive reply : Type :=
| Status (s : Z)
| Raise.

(** The [print] statements of the three functions. *)
Inductive msg : Type :=
| WaitingForImage               (* "Waiting for image..." *)
| Templating                    (* "Templating..." *)
| Searching                     (* "Searching..." *)
| PlaceFinger                   (* "Place finger on sensor..." *)
| PlaceSameAgain                (* "Place same finger again..." *)
| ImageTaken                    (* "Image taken" *)
| Dot                           (* "." *)
| ImagingError                  (* "Imaging error" *)
| OtherError                    (* "Other error" *)
| Templated                     (* "Templated" *)
| ImageTooMessy                 (* "Image too messy" *)
| NoFeatures                    (* "Could not identify features" *)
| ImageInvalid                  (* "Image invalid" *)
| RemoveFinger                  (* "Remove finger" *)
| CreatingModel                 (* "Creating model..." *)
| Created                       (* "Created" *)
| PrintsDidNotMatch             (* "Prints did not match" *)
| StoringModel (location : Z)   (* f"Storing model #{location}..." *)
| Stored                        (* "Stored" *)
| BadStorageLocation            (* "Bad storage location" *)
| FlashStorageError             (* "Flash storage error" *)
| Found                         (* "Found #", finger_id, confidence *)
| FingerNotFound                (* "Finger not found" *)
| Deleted                       (* "Deleted!" *)
| FailedToDelete.               (* "Failed to delete" *)

Inductive event : Type :=
| Call (c : cmd) (s : Z)        (* a round trip that returned status s *)
| Fault (c : cmd)               (* a round trip that raised *)
| Print (m : msg)
| Sleep (secs : Z)              (* time.sleep(secs) *)
| Led (v : Z)                   (* led_line.set_value(v) *)
| Input (v : option Z).         (* int(input(...)); None: not a number *)

(** ** Runs *)

(** How a run ends: it returns a value, it is left by an exception, or
    a loop used up its iteration budget (the Python loop is still
    spinning). *)
Inductive result (A : Type) : Type :=
| Done (a : A)
| Raised
| Starved.
Arguments Done {A} a.
Arguments Raised {A}.
Arguments Starved {A}.

(** A run started with [pos] replies already consumed ends with a
    result, the new position in the reply stream and the events it
    performed, oldest first. *)
Record run (A : Type) : Type := Run {
  res : result A;
  pos : nat;
  tr : list event
}.
Arguments Run {A} res pos tr.
Arguments res {A} r.
Arguments pos {A} r.
Arguments tr {A} r.

(** [before es r] is the run [r] with the events [es] performed first. *)
Definition before {A : Type} (es : list event) (r : run A) : run A :=
  Run (res r) (pos r) (es ++ tr r).

Section Program.

Context {codes : StatusCodes}.

(** The sensor: the reply to the n-th round trip of the session. *)
Variable sensor : nat -> reply.

Definition M (A : Type) : Type := nat -> run A.

Definition ret {A : Type} (a : A) : M A :=
  fun n => Run (Done a) n [].

Definition bind {A B : Type} (m : M A) (f : A -> M B) : M B :=
  fun n =>
    let r := m n in
    match res r with
    | Done a => before (tr r) (f a (pos r))
    | Raised => Run Raised (pos r) (tr r)
    | Starved => Run Starved (pos r) (tr r)
    end.

Definition emit (e : event) : M unit :=
  fun n => Run (Done tt) n [e].

Definition throw {A : Type} (e : event) : M A :=
  fun n => Run Raised n [e].

Definition starve {A : Type} : M A :=
  fun n => Run Starved n [].

Definition call (c : cmd) : M Z :=
  fun n =>
    match sensor n with
    | Status s => Run (Done s) (S n) [Call c s]
    | Raise => Run Raised (S n) [Fault c]
    end.

Definition print (m : msg) : M unit := emit (Print m).

(** [int(input(...))]: a ValueError when the line is not a number. *)
Definition input_int (typed : option Z) : M Z :=
  match typed with
  | Some v => fun n => Run (Done v) n [Input typed]
  | None => throw (Input typed)
  end.

Notation "x <- m ;; k" := (bind m (fun x => k))
  (at level 61, m at next level, right associativity).
Notation "m ;; k" := (bind m (fun _ => k))
  (at level 61, right associativity).

(** *** get_fingerprint *)

(** [while finger.get_image() != adafruit_fingerprint.OK: pass];
    [fuel] bounds the number of polls. *)
Fixpoint wait_image (fuel : nat) : M unit :=
  match fuel with
  | O => starve
  | S fuel' =>
      i <- call GetImage ;;
      if negb (i =? OK) then wait_image fuel' else ret tt
  end.

Definition get_fingerprint (fuel : nat) : M bool :=
  print WaitingForImage ;;
  wait_image fuel ;;
  print Templating ;;
  i <- call (Image2Tz 1) ;;
  if negb (i =? OK) then ret false
  else
    print Searching ;;
    j <- call FingerSearch ;;
    if negb (j =? OK) then ret false else ret true.

(** *** enroll_finger *)

(** The inner [while True] loop of a pass.  [None] is [break],
    [Some b] is [return b]. *)
Fixpoint capture (fuel : nat) : M (option bool) :=
  match fuel with
  | O => starve
  | S fuel' =>
      i <- call GetImage ;;
      if i =? OK then print ImageTaken ;; ret None
      else if i =? NOFINGER then print Dot ;; capture fuel'
      else if i =? IMAGEFAIL then print ImagingError ;; ret (Some false)
      else print OtherError ;; ret (Some false)
  end.

(** [while i != adafruit_fingerprint.NOFINGER: i = finger.get_image()];
    [fuel] bounds the number of iterations. *)
Fixpoint wait_removed (fuel : nat) (i : Z) : M Z :=
  if negb (i =? NOFINGER) then
    match fuel with
    | O => starve
    | S fuel' => i' <- call GetImage ;; wait_removed fuel' i'
    end
  else ret i.

(** The message chosen for a failed [image_2_tz]. *)
Definition template_failure (i : Z) : msg :=
  if i =? IMAGEMESS then ImageTooMessy
  else if i =? FEATUREFAIL then NoFeatures
  else if i =? INVALIDIMAGE then ImageInvalid
  else OtherError.

(** The body of [for fingerimg in range(1, 3)]. *)
Definition enroll_pass (fuel : nat) (fingerimg : Z) : M (option bool) :=
  (if fingerimg =? 1 then print PlaceFinger else print PlaceSameAgain) ;;
  r <- capture fuel ;;
  match r with
  | Some b => ret (Some b)
  | None =>
      print Templating ;;
      i <- call (Image2Tz fingerimg) ;;
      if i =? OK then
        print Templated ;;
        if fingerimg =? 1 then
          print RemoveFinger ;;
          emit (Sleep 1) ;;
          wait_removed fuel i ;;
          ret None
        else ret None
      else
        print (template_failure i) ;;
        ret (Some false)
  end.

(** The messages chosen for a failed [create_model] and [store_model]. *)
Definition model_failure (i : Z) : msg :=
  if i =? ENROLLMISMATCH then PrintsDidNotMatch else OtherError.

Definition store_failure (i : Z) : msg :=
  if i =? BADLOCATION then BadStorageLocation
  else if i =? FLASHERR then FlashStorageError
  else OtherError.

(** The code after the [for] loop. *)
Definition enroll_store (location : Z) : M bool :=
  print CreatingModel ;;
  i <- call CreateModel ;;
  if i =? OK then
    print Created ;;
    print (StoringModel location) ;;
    j <- call (StoreModel location) ;;
    if j =? OK then print Stored ;; ret true
    else print (store_failure j) ;; ret false
  else
    print (model_failure i) ;; ret false.

(** A [for] loop whose body may return from the enclosing function. *)
Fixpoint for_each (xs : list Z) (body : Z -> M (option bool))
    (rest : M bool) : M bool :=
  match xs with
  | [] => rest
  | x :: xs' =>
      r <- body x ;;
      match r with
      | Some b => ret b
      | None => for_each xs' body rest
      end
  end.

Definition enroll_finger (fuel : nat) (location : Z) : M bool :=
  for_each [1; 2] (enroll_pass fuel) (enroll_store location).

(** *** The menu branches of main *)

(** [c == "e"] *)
Definition main_enroll (fuel : nat) (typed : option Z) : M unit :=
  emit (Led 1) ;;
  location <- input_int typed ;;
  (if (location >? 0) && (location <? 128)
   then enroll_finger fuel location ;; ret tt
   else ret tt) ;;
  emit (Led 0).

(** [c == "f"] *)
Definition main_find (fuel : nat) : M unit :=
  emit (Led 1) ;;
  b <- get_fingerprint fuel ;;
  (if b then print Found else print FingerNotFound) ;;
  emit (Led 0).

(** [c == "d"] *)
Definition main_delete (typed : option Z) : M unit :=
  location <- input_int typed ;;
  if (location >? 0) && (location <? 128) then
    i <- call (DeleteModel location) ;;
    if i =? OK then print Deleted else print FailedToDelete
  else ret tt.

End Program.

(** ** Reading traces *)

(** The round trips of a trace, in order, with what each gave back. *)
Fixpoint calls_of (t : list event) : list (cmd * reply) :=
  match t with
  | [] => []
  | Call c s :: t' => (c, Status s) :: calls_of t'
  | Fault c :: t' => (c, Raise) :: calls_of t'
  | _ :: t' => calls_of t'
  end.

(** The values written to the LED line, in order. *)
Fixpoint leds_of (t : list event) : list Z :=
  match t with
  | [] => []
  | Led v :: t' => v :: leds_of t'
  | _ :: t' => leds_of t'
  end.

(** The messages printed, in order. *)
Fixpoint prints_of (t : list event) : list msg :=
  match t with
  | [] => []
  | Print m :: t' => m :: prints_of t'
  | _ :: t' => prints_of t'
  end.

(** Is the event a round trip of [create_model] or [store_model]? *)
Definition model_event (e : event) : bool :=
  match e with
  | Call CreateModel _ | Fault CreateModel => true
  | Call (StoreModel _) _ | Fault (StoreModel _) => true
  | _ => false
  end.

(** Is the event a round trip of [store_model]? *)
Definition store_event (e : event) : bool :=
  match e with
  | Call (StoreModel _) _ | Fault (StoreModel _) => true
  | _ => false
  end.

Lemma calls_of_app (t u : list event) :
  calls_of (t ++ u) = calls_of t ++ calls_of u.
Proof.
  induction t as [|e t IH]; [reflexivity|].
  destruct e; cbn; rewrite ?IH; reflexivity.
Qed.

Lemma leds_of_app (t u : list event) :
  leds_of (t ++ u) = leds_of t ++ leds_of u.
Proof.
  induction t as [|e t IH]; [reflexivity|].
  destruct e; cbn; rewrite ?IH; reflexivity.
Qed.

Lemma prints_of_app (t u : list event) :
  prints_of (t ++ u) = prints_of t ++ prints_of u.
Proof.
  induction t as [|e t IH]; [reflexivity|].
  destruct e; cbn; rewrite ?IH; reflexivity.
Qed.

(** ** Equations of the run monad *)

Section Equations.

Context {codes : StatusCodes}.
Variable sensor : nat -> reply.

Lemma before_nil {A : Type} (r : run A) : before [] r = r.
Proof. destruct r; reflexivity. Qed.

Lemma before_before {A : Type} (es fs : list event) (r : run A) :
  before es (before fs r) = before (es ++ fs) r.
Proof. unfold before; cbn. now rewrite app_assoc. Qed.

Lemma bind_ret {A B : Type} (a : A) (f : A -> M B) (n : nat) :
  bind (ret a) f n = f a n.
Proof. unfold bind, ret; cbn. apply before_nil. Qed.

Lemma bind_emit {B : Type} (e : event) (f : unit -> M B) (n : nat) :
  bind (emit e) f n = before [e] (f tt n).
Proof. reflexivity. Qed.

Lemma bind_print {B : Type} (m : msg) (f : unit -> M B) (n : nat) :
  bind (print m) f n = before [Print m] (f tt n).
Proof. reflexivity. Qed.

Lemma bind_call_status {B : Type} (c : cmd) (f : Z -> M B) (n : nat) (s : Z) :
  sensor n = Status s ->
  bind (call sensor c) f n = before [Call c s] (f s (S n)).
Proof. intros E. unfold bind, call. rewrite E. reflexivity. Qed.

Lemma bind_call_raise {B : Type} (c : cmd) (f : Z -> M B) (n : nat) :
  sensor n = Raise ->
  bind (call sensor c) f n = Run Raised (S n) [Fault c].
Proof. intros E. unfold bind, call. rewrite E. reflexivity. Qed.

Lemma bind_assoc {A B C : Type} (m : M A) (f : A -> M B) (g : B -> M C)
    (n : nat) :
  bind (bind m f) g n = bind m (fun a => bind (f a) g) n.
Proof.
  unfold bind. destruct (m n) as [[a| |] p t]; cbn; try reflexivity.
  destruct (f a p) as [[b| |] q u]; cbn; try reflexivity.
  unfold before; cbn. now rewrite app_assoc.
Qed.

(** The result of a sequence, by the result of its first part. *)
Lemma bind_done {A B : Type} (m : M A) (f : A -> M B) (n : nat) (a : A) :
  res (m n) = Done a ->
  bind m f n = before (tr (m n)) (f a (pos (m n))).
Proof. intros E. unfold bind. now rewrite E. Qed.

Lemma bind_raised {A B : Type} (m : M A) (f : A -> M B) (n : nat) :
  res (m n) = Raised ->
  bind m f n = Run Raised (pos (m n)) (tr (m n)).
Proof. intros E. unfold bind. now rewrite E. Qed.

Lemma bind_starved {A B : Type} (m : M A) (f : A -> M B) (n : nat) :
  res (m n) = Starved ->
  bind m f n = Run Starved (pos (m n)) (tr (m n)).
Proof. intros E. unfold bind. now rewrite E. Qed.

(** Pairwise distinctness of the status constants, unpacked. *)
Lemma codes_apart :
  OK <> NOFINGER /\ OK <> IMAGEFAIL /\ OK <> IMAGEMESS /\
  OK <> FEATUREFAIL /\ OK <> INVALIDIMAGE /\ OK <> ENROLLMISMATCH /\
  OK <> BADLOCATION /\ OK <> FLASHERR /\ NOFINGER <> IMAGEFAIL /\
  IMAGEMESS <> FEATUREFAIL /\ IMAGEMESS <> INVALIDIMAGE /\
  FEATUREFAIL <> INVALIDIMAGE /\ BADLOCATION <> FLASHERR.
Proof.
  pose proof codes_distinct as D.
  repeat match goal with
         | H : NoDup (_ :: _) |- _ => inversion H; clear H; subst
         end.
  cbn [In] in *.
  repeat split; intros E; rewrite E in *; tauto.
Qed.

End Equations.

(** ** The shape of the loops *)

Section Loops.

Context {codes : StatusCodes}.
Variable sensor : nat -> reply.

(** [k] polls that found no finger, each answered by a dot. *)
Fixpoint dots (k : nat) : list event :=
  match k with
  | O => []
  | S k' => Call GetImage NOFINGER :: Print Dot :: dots k'
  end.

(** The message chosen for a failed [get_image] during a pass. *)
Definition capture_failure (s : Z) : msg :=
  if s =? IMAGEFAIL then ImagingError else OtherError.

(** How the capture loop of a pass can end, with the trace of each way. *)
Inductive capture_case (fuel : nat) :
    result (option bool) -> list event -> Prop :=
| cap_ok (k : nat) :
    (k < fuel)%nat ->
    capture_case fuel (Done None)
      (dots k ++ [Call GetImage OK; Print ImageTaken])
| cap_fail (k : nat) (s : Z) :
    (k < fuel)%nat -> s <> OK -> s <> NOFINGER ->
    capture_case fuel (Done (Some false))
      (dots k ++ [Call GetImage s; Print (capture_failure s)])
| cap_raise (k : nat) :
    (k < fuel)%nat ->
    capture_case fuel Raised (dots k ++ [Fault GetImage])
| cap_starve :
    capture_case fuel Starved (dots fuel).

Lemma capture_unfold (fuel n : nat) :
  capture sensor (S fuel) n =
  match sensor n with
  | Status s =>
      if s =? OK then Run (Done None) (S n) [Call GetImage s; Print ImageTaken]
      else if s =? NOFINGER then
        before [Call GetImage s; Print Dot] (capture sensor fuel (S n))
      else Run (Done (Some false)) (S n)
             [Call GetImage s; Print (capture_failure s)]
  | Raise => Run Raised (S n) [Fault GetImage]
  end.
Proof.
  cbn [capture]. destruct (sensor n) as [s|] eqn:E.
  - rewrite (bind_call_status sensor _ _ _ s E).
    unfold capture_failure.
    destruct (s =? OK); [reflexivity|].
    destruct (s =? NOFINGER); [reflexivity|].
    destruct (s =? IMAGEFAIL); reflexivity.
  - now rewrite (bind_call_raise sensor _ _ _ E).
Qed.

Lemma capture_spec (fuel n : nat) :
  capture_case fuel (res (capture sensor fuel n)) (tr (capture sensor fuel n)).
Proof.
  revert n. induction fuel as [|fuel IH]; intros n.
  - cbn. apply cap_starve.
  - rewrite capture_unfold. destruct (sensor n) as [s|].
    + destruct (Z.eqb_spec s OK) as [->|Hok].
      * apply (cap_ok (S fuel) 0). lia.
      * destruct (Z.eqb_spec s NOFINGER) as [->|Hnf].
        -- cbn [before res tr].
           destruct (IH (S n)) as [k Hk|k s Hk H1 H2|k Hk|].
           ++ apply (cap_ok (S fuel) (S k)). lia.
           ++ apply (cap_fail (S fuel) (S k) s); [lia|assumption..].
           ++ apply (cap_raise (S fuel) (S k)). lia.
           ++ apply (cap_starve (S fuel)).
        -- apply (cap_fail (S fuel) 0 s); [lia|assumption..].
    + apply (cap_raise (S fuel) 0). lia.
Qed.

(** How the wait for the finger to be lifted can end.  [ss] are the
    statuses polled past. *)
Inductive removal_case (fuel : nat) (i : Z) :
    result Z -> list event -> Prop :=
| rem_skip :
    i = NOFINGER ->
    removal_case fuel i (Done i) []
| rem_done (ss : list Z) :
    i <> NOFINGER -> (length ss < fuel)%nat ->
    Forall (fun s => s <> NOFINGER) ss ->
    removal_case fuel i (Done NOFINGER)
      (map (Call GetImage) ss ++ [Call GetImage NOFINGER])
| rem_raise (ss : list Z) :
    i <> NOFINGER -> (length ss < fuel)%nat ->
    Forall (fun s => s <> NOFINGER) ss ->
    removal_case fuel i Raised (map (Call GetImage) ss ++ [Fault GetImage])
| rem_starve (ss : list Z) :
    i <> NOFINGER -> length ss = fuel ->
    Forall (fun s => s <> NOFINGER) ss ->
    removal_case fuel i Starved (map (Call GetImage) ss).

Lemma wait_removed_unfold (fuel : nat) (i : Z) (n : nat) :
  wait_removed sensor fuel i n =
  if i =? NOFINGER then Run (Done i) n []
  else match fuel with
       | O => Run Starved n []
       | S fuel' =>
           match sensor n with
           | Status s =>
               before [Call GetImage s] (wait_removed sensor fuel' s (S n))
           | Raise => Run Raised (S n) [Fault GetImage]
           end
       end.
Proof.
  destruct fuel as [|fuel]; cbn [wait_removed];
    destruct (i =? NOFINGER); cbn [negb]; try reflexivity.
  destruct (sensor n) as [s|] eqn:E.
  - now rewrite (bind_call_status sensor _ _ _ s E).
  - now rewrite (bind_call_raise sensor _ _ _ E).
Qed.

Lemma wait_removed_spec (fuel : nat) (i : Z) (n : nat) :
  removal_case fuel i (res (wait_removed sensor fuel i n))
    (tr (wait_removed sensor fuel i n)).
Proof.
  revert i n. induction fuel as [|fuel IH]; intros i n;
    rewrite wait_removed_unfold;
    destruct (Z.eqb_spec i NOFINGER) as [Hi|Hi].
  - now apply rem_skip.
  - now apply (rem_starve 0 i []).
  - now apply rem_skip.
  - destruct (sensor n) as [s|].
    + cbn [before res tr].
      destruct (IH s (S n)) as [Hs|ss Hs Hl Hf|ss Hs Hl Hf|ss Hs Hl Hf].
      * subst s. apply (rem_done (S fuel) i []); [assumption|cbn; lia|constructor].
      * apply (rem_done (S fuel) i (s :: ss));
          [assumption|cbn; lia|now constructor].
      * apply (rem_raise (S fuel) i (s :: ss));
          [assumption|cbn; lia|now constructor].
      * apply (rem_starve (S fuel) i (s :: ss));
          [assumption|cbn; lia|now constructor].
    + apply (rem_raise (S fuel) i []); [assumption|cbn; lia|constructor].
Qed.

End Loops.

(** ** What a computation can emit *)

Section Emits.

Context {codes : StatusCodes}.
Variable sensor : nat -> reply.

(** [emits P m]: every event of every run of [m] satisfies [P]. *)
Definition emits {A : Type} (P : event -> Prop) (m : M A) : Prop :=
  forall n, Forall P (tr (m n)).

Lemma emits_ret {A : Type} (P : event -> Prop) (a : A) : emits P (ret a).
Proof. intros n. constructor. Qed.

Lemma emits_starve {A : Type} (P : event -> Prop) : emits P (@starve A).
Proof. intros n. constructor. Qed.

Lemma emits_emit (P : event -> Prop) (e : event) : P e -> emits P (emit e).
Proof. intros H n. cbn. now repeat constructor. Qed.

Lemma emits_print (P : event -> Prop) (m : msg) :
  P (Print m) -> emits P (print m).
Proof. apply emits_emit. Qed.

Lemma emits_call (P : event -> Prop) (c : cmd) :
  (forall s, P (Call c s)) -> P (Fault c) -> emits P (call sensor c).
Proof.
  intros Hs Hf n. unfold call. destruct (sensor n); cbn; now repeat constructor.
Qed.

Lemma emits_bind {A B : Type} (P : event -> Prop) (m : M A) (f : A -> M B) :
  emits P m -> (forall a, emits P (f a)) -> emits P (bind m f).
Proof.
  intros Hm Hf n. unfold bind. specialize (Hm n).
  destruct (m n) as [[a| |] p t]; cbn in *; try assumption.
  apply Forall_app. split; [assumption|apply Hf].
Qed.

Lemma emits_if {A : Type} (P : event -> Prop) (b : bool) (m1 m2 : M A) :
  emits P m1 -> emits P m2 -> emits P (if b then m1 else m2).
Proof. now destruct b. Qed.

(** The events of the identification routine and of an enrollment pass. *)
Definition no_led (e : event) : Prop :=
  match e with Led _ | Input _ => False | _ => True end.

Definition pass_event (e : event) : Prop :=
  match e with
  | Call GetImage _ | Fault GetImage => True
  | Call (Image2Tz _) _ | Fault (Image2Tz _) => True
  | Print _ | Sleep _ => True
  | _ => False
  end.

Ltac emits_step :=
  first
    [ apply emits_ret
    | apply emits_starve
    | apply emits_print; exact I
    | apply emits_emit; exact I
    | apply emits_call; [intros ?; exact I | exact I]
    | apply emits_if
    | apply emits_bind; [ | intros ? ] ].

Lemma wait_image_no_led (fuel : nat) : emits no_led (wait_image sensor fuel).
Proof.
  induction fuel as [|fuel IH]; cbn [wait_image]; repeat emits_step.
  assumption.
Qed.

Lemma get_fingerprint_no_led (fuel : nat) :
  emits no_led (get_fingerprint sensor fuel).
Proof.
  unfold get_fingerprint.
  apply emits_bind; [apply emits_print; exact I|intros _].
  apply emits_bind; [apply wait_image_no_led|intros _].
  repeat emits_step.
Qed.

Lemma capture_pass_event (fuel : nat) : emits pass_event (capture sensor fuel).
Proof.
  induction fuel as [|fuel IH]; cbn [capture]; repeat emits_step.
  assumption.
Qed.

Lemma wait_removed_pass_event (fuel : nat) (i : Z) :
  emits pass_event (wait_removed sensor fuel i).
Proof.
  revert i. induction fuel as [|fuel IH]; intros i; cbn [wait_removed];
    repeat emits_step.
  apply IH.
Qed.

Lemma enroll_pass_pass_event (fuel : nat) (fingerimg : Z) :
  emits pass_event (enroll_pass sensor fuel fingerimg).
Proof.
  unfold enroll_pass.
  apply emits_bind; [repeat emits_step|intros _].
  apply emits_bind; [apply capture_pass_event|intros [b|]].
  - apply emits_ret.
  - apply emits_bind; [apply emits_print; exact I|intros _].
    apply emits_bind; [apply emits_call; [intros ?; exact I|exact I]|intros i].
    apply emits_if; [|repeat emits_step].
    apply emits_bind; [apply emits_print; exact I|intros _].
    apply emits_if; [|apply emits_ret].
    apply emits_bind; [apply emits_print; exact I|intros _].
    apply emits_bind; [apply emits_emit; exact I|intros _].
    apply emits_bind; [apply wait_removed_pass_event|intros _].
    apply emits_ret.
Qed.

Lemma pass_event_no_led (e : event) : pass_event e -> no_led e.
Proof. destruct e as [c s|c|m|x|v|v]; cbn; try tauto; destruct c; tauto. Qed.

Lemma emits_weaken {A : Type} (P Q : event -> Prop) (m : M A) :
  (forall e, P e -> Q e) -> emits P m -> emits Q m.
Proof. intros HPQ H n. eapply Forall_impl; [exact HPQ|apply H]. Qed.

Lemma enroll_store_no_led (location : Z) :
  emits no_led (enroll_store sensor location).
Proof. unfold enroll_store. repeat emits_step. Qed.

Lemma enroll_finger_no_led (fuel : nat) (location : Z) :
  emits no_led (enroll_finger sensor fuel location).
Proof.
  unfold enroll_finger. cbn [for_each].
  assert (Hp : forall f, emits no_led (enroll_pass sensor fuel f)).
  { intros f. eapply emits_weaken;
      [apply pass_event_no_led|apply enroll_pass_pass_event]. }
  apply emits_bind; [apply Hp|intros [b|]]; [apply emits_ret|].
  apply emits_bind; [apply Hp|intros [b|]]; [apply emits_ret|].
  apply enroll_store_no_led.
Qed.

Lemma no_led_leds (t : list event) : Forall no_led t -> leds_of t = [].
Proof.
  induction 1 as [|e t He _ IH]; [reflexivity|].
  destruct e; cbn in *; try assumption; contradiction.
Qed.

End Emits.

(** ** The shape of an enrollment run *)

Section Enrollment.

Context {codes : StatusCodes}.
Variable sensor : nat -> reply.

(** The prompt that opens a pass. *)
Definition prompt (fingerimg : Z) : msg :=
  if fingerimg =? 1 then PlaceFinger else PlaceSameAgain.

(** A capture that succeeded after [k] empty polls. *)
Definition captured (k : nat) : list event :=
  dots k ++ [Call GetImage OK; Print ImageTaken].

(** A successful feature extraction into [slot]. *)
Definition templated (slot : Z) : list event :=
  [Print Templating; Call (Image2Tz slot) OK; Print Templated].

(** The wait for the finger to be lifted, polling past [ss]. *)
Definition lifted (ss : list Z) : list event :=
  [Print RemoveFinger; Sleep 1] ++ map (Call GetImage) ss
    ++ [Call GetImage NOFINGER].

(** A completed first and a completed second pass. *)
Definition pass1 (k : nat) (ss : list Z) : list event :=
  Print PlaceFinger :: captured k ++ templated 1 ++ lifted ss.

Definition pass2 (k : nat) : list event :=
  Print PlaceSameAgain :: captured k ++ templated 2.

(** The ways a pass ends the enrollment. *)
Inductive pass_stop (fuel : nat) (f : Z) : result bool -> list event -> Prop :=
| stop_capture_fail (k : nat) (s : Z) :
    (k < fuel)%nat -> s <> OK -> s <> NOFINGER ->
    pass_stop fuel f (Done false)
      (Print (prompt f) :: dots k
         ++ [Call GetImage s; Print (capture_failure s)])
| stop_capture_raise (k : nat) :
    (k < fuel)%nat ->
    pass_stop fuel f Raised (Print (prompt f) :: dots k ++ [Fault GetImage])
| stop_capture_starve :
    pass_stop fuel f Starved (Print (prompt f) :: dots fuel)
| stop_extract_fail (k : nat) (s : Z) :
    (k < fuel)%nat -> s <> OK ->
    pass_stop fuel f (Done false)
      (Print (prompt f) :: captured k
         ++ [Print Templating; Call (Image2Tz f) s;
             Print (template_failure s)])
| stop_extract_raise (k : nat) :
    (k < fuel)%nat ->
    pass_stop fuel f Raised
      (Print (prompt f) :: captured k
         ++ [Print Templating; Fault (Image2Tz f)])
| stop_lift_raise (k : nat) (ss : list Z) :
    f = 1 -> (k < fuel)%nat -> Forall (fun s => s <> NOFINGER) ss ->
    pass_stop fuel f Raised
      (Print (prompt f) :: captured k ++ templated f
         ++ [Print RemoveFinger; Sleep 1] ++ map (Call GetImage) ss
         ++ [Fault GetImage])
| stop_lift_starve (k : nat) (ss : list Z) :
    f = 1 -> (k < fuel)%nat -> Forall (fun s => s <> NOFINGER) ss ->
    length ss = fuel ->
    pass_stop fuel f Starved
      (Print (prompt f) :: captured k ++ templated f
         ++ [Print RemoveFinger; Sleep 1] ++ map (Call GetImage) ss).

(** The ways a pass can end. *)
Inductive pass_case (fuel : nat) (f : Z) :
    result (option bool) -> list event -> Prop :=
| pass_failed (t : list event) :
    pass_stop fuel f (Done false) t -> pass_case fuel f (Done (Some false)) t
| pass_raised (t : list event) :
    pass_stop fuel f Raised t -> pass_case fuel f Raised t
| pass_starved (t : list event) :
    pass_stop fuel f Starved t -> pass_case fuel f Starved t
| pass_first (k : nat) (ss : list Z) :
    f = 1 -> (k < fuel)%nat -> (length ss < fuel)%nat ->
    Forall (fun s => s <> NOFINGER) ss ->
    pass_case fuel f (Done None) (pass1 k ss)
| pass_other (k : nat) :
    f <> 1 -> (k < fuel)%nat ->
    pass_case fuel f (Done None)
      (Print PlaceSameAgain :: captured k ++ templated f).

(** The ways the code after the loop can end. *)
Inductive store_case (location : Z) : result bool -> list event -> Prop :=
| store_create_raise :
    store_case location Raised [Print CreatingModel; Fault CreateModel]
| store_create_fail (s : Z) :
    s <> OK ->
    store_case location (Done false)
      [Print CreatingModel; Call CreateModel s; Print (model_failure s)]
| store_store_raise :
    store_case location Raised
      [Print CreatingModel; Call CreateModel OK; Print Created;
       Print (StoringModel location); Fault (StoreModel location)]
| store_store_fail (s : Z) :
    s <> OK ->
    store_case location (Done false)
      [Print CreatingModel; Call CreateModel OK; Print Created;
       Print (StoringModel location); Call (StoreModel location) s;
       Print (store_failure s)]
| store_stored :
    store_case location (Done true)
      [Print CreatingModel; Call CreateModel OK; Print Created;
       Print (StoringModel location); Call (StoreModel location) OK;
       Print Stored].

(** The ways an enrollment can end. *)
Inductive enroll_case (fuel : nat) (location : Z) :
    result bool -> list event -> Prop :=
| enroll_stop1 (r : result bool) (t : list event) :
    pass_stop fuel 1 r t ->
    enroll_case fuel location r t
| enroll_stop2 (k : nat) (ss : list Z) (r : result bool) (t : list event) :
    Forall (fun s => s <> NOFINGER) ss ->
    pass_stop fuel 2 r t ->
    enroll_case fuel location r (pass1 k ss ++ t)
| enroll_stored (k1 : nat) (ss : list Z) (k2 : nat) (r : result bool)
    (t : list event) :
    Forall (fun s => s <> NOFINGER) ss ->
    store_case location r t ->
    enroll_case fuel location r (pass1 k1 ss ++ pass2 k2 ++ t).

Lemma pass_stop_eq (fuel : nat) (f : Z) (r : result bool) (t u : list event) :
  pass_stop fuel f r t -> t = u -> pass_stop fuel f r u.
Proof. now intros H <-. Qed.

Lemma pass_case_eq (fuel : nat) (f : Z) (r : result (option bool))
    (t u : list event) :
  pass_case fuel f r t -> t = u -> pass_case fuel f r u.
Proof. now intros H <-. Qed.

Lemma enroll_case_eq (fuel : nat) (l : Z) (r : result bool)
    (t u : list event) :
  enroll_case fuel l r t -> t = u -> enroll_case fuel l r u.
Proof. now intros H <-. Qed.

End Enrollment.

(** ** Every run has one of the shapes *)

Section Specs.

Context {codes : StatusCodes}.
Variable sensor : nat -> reply.

Lemma bind_run {A B : Type} (m : M A) (f : A -> M B) (n : nat) :
  bind m f n =
  match res (m n) with
  | Done a => before (tr (m n)) (f a (pos (m n)))
  | Raised => Run Raised (pos (m n)) (tr (m n))
  | Starved => Run Starved (pos (m n)) (tr (m n))
  end.
Proof. reflexivity. Qed.

Lemma enroll_pass_spec (fuel : nat) (f : Z) (n : nat) :
  pass_case fuel f (res (enroll_pass sensor fuel f n))
    (tr (enroll_pass sensor fuel f n)).
Proof.
  pose proof codes_apart as (Hnf & _).
  unfold enroll_pass.
  replace (if f =? 1 then print PlaceFinger else print PlaceSameAgain)
    with (print (prompt f)) by (unfold prompt; now destruct (f =? 1)).
  rewrite bind_print, (bind_run (capture sensor fuel)).
  pose proof (capture_spec sensor fuel n) as Hc.
  destruct (capture sensor fuel n) as [rc pc tc]. cbn [res pos tr] in Hc |- *.
  destruct Hc as [k Hk|k s Hk H1 H2|k Hk|]; cbn [before res pos tr].
  - (* image taken *)
    rewrite bind_print.
    destruct (sensor pc) as [s|] eqn:E.
    + rewrite (bind_call_status sensor _ _ _ s E).
      destruct (Z.eqb_spec s OK) as [->|Hs].
      * rewrite bind_print.
        destruct (Z.eqb_spec f 1) as [->|Hf].
        -- rewrite bind_print, bind_emit, (bind_run (wait_removed sensor fuel OK)).
           pose proof (wait_removed_spec sensor fuel OK (S pc)) as Hr.
           destruct (wait_removed sensor fuel OK (S pc)) as [rr pr trr].
           cbn [res pos tr] in Hr.
           destruct Hr as [Hi|ss Hi Hl Hf|ss Hi Hl Hf|ss Hi Hl Hf];
             [contradiction| | | ]; cbn [before res pos tr ret].
           ++ eapply pass_case_eq; [apply (pass_first fuel 1 k ss); auto|].
              unfold pass1, captured, templated, lifted; cbn.
              now rewrite <- !app_assoc, ?app_nil_r.
           ++ apply pass_raised.
              eapply pass_stop_eq;
                [apply (stop_lift_raise fuel 1 k ss); auto|].
              unfold captured, templated; cbn.
              now rewrite <- !app_assoc.
           ++ apply pass_starved.
              eapply pass_stop_eq;
                [apply (stop_lift_starve fuel 1 k ss); auto|].
              unfold captured, templated; cbn.
              now rewrite <- !app_assoc.
        -- cbn [before res pos tr ret].
           eapply pass_case_eq; [apply (pass_other fuel f k); auto|].
           unfold prompt. destruct (Z.eqb_spec f 1); [contradiction|].
           unfold captured, templated; cbn.
           now rewrite <- !app_assoc, ?app_nil_r.
      * rewrite bind_print. cbn [before res pos tr ret].
        apply pass_failed.
        eapply pass_stop_eq; [apply (stop_extract_fail fuel f k s); auto|].
        unfold captured; cbn. now rewrite <- !app_assoc.
    + rewrite (bind_call_raise sensor _ _ _ E). cbn [before res pos tr].
      apply pass_raised.
      eapply pass_stop_eq; [apply (stop_extract_raise fuel f k); auto|].
      unfold captured; cbn. now rewrite <- !app_assoc.
  - apply pass_failed.
    eapply pass_stop_eq; [apply (stop_capture_fail fuel f k s); auto|].
    cbn. now rewrite app_nil_r.
  - apply pass_raised. now apply stop_capture_raise.
  - apply pass_starved. apply stop_capture_starve.
Qed.

Lemma enroll_store_spec (location : Z) (n : nat) :
  store_case location (res (enroll_store sensor location n))
    (tr (enroll_store sensor location n)).
Proof.
  unfold enroll_store. rewrite bind_print.
  destruct (sensor n) as [s|] eqn:E.
  - rewrite (bind_call_status sensor _ _ _ s E).
    destruct (Z.eqb_spec s OK) as [->|Hs].
    + rewrite !bind_print.
      destruct (sensor (S n)) as [s'|] eqn:E'.
      * rewrite (bind_call_status sensor _ _ _ s' E').
        destruct (Z.eqb_spec s' OK) as [->|Hs'].
        -- rewrite bind_print. apply store_stored.
        -- rewrite bind_print. now apply store_store_fail.
      * rewrite (bind_call_raise sensor _ _ _ E'). apply store_store_raise.
    + rewrite bind_print. now apply store_create_fail.
  - rewrite (bind_call_raise sensor _ _ _ E). apply store_create_raise.
Qed.

Lemma enroll_finger_spec (fuel : nat) (location : Z) (n : nat) :
  enroll_case fuel location (res (enroll_finger sensor fuel location n))
    (tr (enroll_finger sensor fuel location n)).
Proof.
  unfold enroll_finger. cbn [for_each].
  rewrite (bind_run (enroll_pass sensor fuel 1)).
  pose proof (enroll_pass_spec fuel 1 n) as H1.
  destruct (enroll_pass sensor fuel 1 n) as [r1 p1 t1]. cbn [res pos tr] in *.
  destruct H1 as [t1 H1|t1 H1|t1 H1|k1 ss _ Hk1 Hl Hss|k1 Hf _];
    [ | | | |contradiction].
  - cbn [before res pos tr ret]. rewrite app_nil_r. now apply enroll_stop1.
  - now apply enroll_stop1.
  - now apply enroll_stop1.
  - rewrite (bind_run (enroll_pass sensor fuel 2)).
    pose proof (enroll_pass_spec fuel 2 p1) as H2.
    destruct (enroll_pass sensor fuel 2 p1) as [r2 p2 t2].
    cbn [res pos tr] in *.
    destruct H2 as [t2 H2|t2 H2|t2 H2|k2 ss2 Hf _ _ _|k2 _ Hk2];
      [ | | |discriminate| ].
    + cbn [before res pos tr ret]. rewrite app_nil_r.
      now apply enroll_stop2.
    + cbn [before res pos tr]. now apply enroll_stop2.
    + cbn [before res pos tr]. now apply enroll_stop2.
    + cbn [before res pos tr].
      apply (enroll_stored fuel location k1 ss k2); [assumption|].
      apply enroll_store_spec.
Qed.

End Specs.

(** ** Facts about the shapes *)

Section ShapeFacts.

Context {codes : StatusCodes}.

(** Events inside a pass other than its opening prompt. *)
Definition body_event (e : event) : Prop :=
  match e with
  | Call GetImage _ | Fault GetImage => True
  | Call (Image2Tz _) _ | Fault (Image2Tz _) => True
  | Sleep _ => True
  | Print PlaceFinger | Print PlaceSameAgain => False
  | Print _ => True
  | _ => False
  end.

Lemma Forall_dots (P : event -> Prop) (k : nat) :
  P (Call GetImage NOFINGER) -> P (Print Dot) -> Forall P (dots k).
Proof. intros H1 H2. induction k; cbn; repeat constructor; assumption. Qed.

Lemma Forall_polls (P : event -> Prop) (ss : list Z) :
  (forall s, P (Call GetImage s)) -> Forall P (map (Call GetImage) ss).
Proof. intros H. induction ss; cbn; constructor; auto. Qed.

Lemma body_capture_failure (s : Z) : body_event (Print (capture_failure s)).
Proof. unfold capture_failure. now destruct (s =? IMAGEFAIL). Qed.

Lemma body_template_failure (s : Z) : body_event (Print (template_failure s)).
Proof.
  unfold template_failure.
  destruct (s =? IMAGEMESS), (s =? FEATUREFAIL), (s =? INVALIDIMAGE);
    exact I.
Qed.

Ltac body_events :=
  repeat first
    [ apply Forall_nil
    | apply Forall_cons
    | apply Forall_app; split
    | apply Forall_dots
    | apply Forall_polls; intros ?
    | apply body_capture_failure
    | apply body_template_failure
    | exact I ].

Lemma captured_body (k : nat) : Forall body_event (captured k).
Proof. unfold captured. body_events. Qed.

Lemma pass1_body (k : nat) (ss : list Z) :
  exists t, pass1 k ss = Print PlaceFinger :: t /\ Forall body_event t.
Proof.
  eexists. split; [reflexivity|].
  unfold captured, templated, lifted. body_events.
Qed.

Lemma pass2_body (k : nat) :
  exists t, pass2 k = Print PlaceSameAgain :: t /\ Forall body_event t.
Proof.
  eexists. split; [reflexivity|].
  unfold captured, templated. body_events.
Qed.

Lemma pass_stop_body (fuel : nat) (f : Z) (r : result bool) (t : list event) :
  pass_stop fuel f r t ->
  exists u, t = Print (prompt f) :: u /\ Forall body_event u.
Proof.
  intros H; destruct H; eexists; (split; [reflexivity|]);
    unfold captured, templated; body_events.
Qed.

Lemma body_pass_event (e : event) : body_event e -> pass_event e.
Proof.
  destruct e as [c s|c|m|x|v|v]; cbn; try tauto; destruct c; tauto.
Qed.

Lemma pass1_events (k : nat) (ss : list Z) : Forall pass_event (pass1 k ss).
Proof.
  destruct (pass1_body k ss) as (t & -> & H).
  constructor; [exact I|]. eapply Forall_impl; [apply body_pass_event|exact H].
Qed.

Lemma pass2_events (k : nat) : Forall pass_event (pass2 k).
Proof.
  destruct (pass2_body k) as (t & -> & H).
  constructor; [exact I|]. eapply Forall_impl; [apply body_pass_event|exact H].
Qed.

Lemma pass_stop_events (fuel : nat) (f : Z) (r : result bool)
    (t : list event) :
  pass_stop fuel f r t -> Forall pass_event t.
Proof.
  intros H. destruct (pass_stop_body _ _ _ _ H) as (u & -> & Hu).
  constructor; [exact I|]. eapply Forall_impl; [apply body_pass_event|exact Hu].
Qed.

(** A pass performs no round trip of [create_model] or [store_model]. *)
Lemma pass_event_model (e : event) : pass_event e -> model_event e = false.
Proof.
  destruct e as [c s|c|m|x|v|v]; cbn; try tauto; destruct c; tauto.
Qed.

Lemma model_store_event (e : event) :
  model_event e = false -> store_event e = false.
Proof. destruct e as [c s|c|m|x|v|v]; cbn; try tauto; now destruct c. Qed.

(** Where an element that occurs once splits a list. *)
Lemma split_once {A : Type} (P : A -> Prop) (l1 l2 pre post : list A) (x y : A) :
  Forall P l1 -> Forall P l2 -> ~ P x -> ~ P y ->
  l1 ++ x :: l2 = pre ++ y :: post ->
  pre = l1 /\ y = x /\ post = l2.
Proof.
  intros H1 H2 Hx Hy. revert pre.
  induction H1 as [|a l1 Ha H1 IH]; intros pre E.
  - destruct pre as [|b pre]; cbn in E.
    + injection E as -> ->. auto.
    + injection E as -> ->. exfalso. apply Hy.
      rewrite Forall_forall in H2. apply H2, in_elt.
  - destruct pre as [|b pre]; cbn in E.
    + injection E as -> _. contradiction.
    + injection E as -> E.
      destruct (IH pre E) as (-> & -> & ->). auto.
Qed.

End ShapeFacts.

(** ** Identification *)

Section Identification.

Context {codes : StatusCodes}.
Variable sensor : nat -> reply.

Lemma wait_image_unfold (fuel n : nat) :
  wait_image sensor (S fuel) n =
  match sensor n with
  | Status s =>
      if s =? OK then Run (Done tt) (S n) [Call GetImage s]
      else before [Call GetImage s] (wait_image sensor fuel (S n))
  | Raise => Run Raised (S n) [Fault GetImage]
  end.
Proof.
  cbn [wait_image]. destruct (sensor n) as [s|] eqn:E.
  - rewrite (bind_call_status sensor _ _ _ s E).
    destruct (s =? OK); reflexivity.
  - now rewrite (bind_call_raise sensor _ _ _ E).
Qed.

(** How the wait for an image can end; [ss] are the statuses polled
    past. *)
Inductive wait_case (fuel : nat) : result unit -> list event -> Prop :=
| wait_ok (ss : list Z) :
    (length ss < fuel)%nat -> Forall (fun s => s <> OK) ss ->
    wait_case fuel (Done tt) (map (Call GetImage) ss ++ [Call GetImage OK])
| wait_raise (ss : list Z) :
    (length ss < fuel)%nat -> Forall (fun s => s <> OK) ss ->
    wait_case fuel Raised (map (Call GetImage) ss ++ [Fault GetImage])
| wait_starve (ss : list Z) :
    length ss = fuel -> Forall (fun s => s <> OK) ss ->
    wait_case fuel Starved (map (Call GetImage) ss).

Lemma wait_image_spec (fuel n : nat) :
  wait_case fuel (res (wait_image sensor fuel n))
    (tr (wait_image sensor fuel n)).
Proof.
  revert n. induction fuel as [|fuel IH]; intros n.
  - apply (wait_starve 0 []); [reflexivity|constructor].
  - rewrite wait_image_unfold. destruct (sensor n) as [s|].
    + destruct (Z.eqb_spec s OK) as [->|Hs].
      * apply (wait_ok (S fuel) []); [cbn; lia|constructor].
      * cbn [before res tr].
        destruct (IH (S n)) as [ss Hl Hf|ss Hl Hf|ss Hl Hf].
        -- apply (wait_ok (S fuel) (s :: ss)); [cbn; lia|now constructor].
        -- apply (wait_raise (S fuel) (s :: ss)); [cbn; lia|now constructor].
        -- apply (wait_starve (S fuel) (s :: ss)); [cbn; lia|now constructor].
    + apply (wait_raise (S fuel) []); [cbn; lia|constructor].
Qed.

(** A sequence whose first part starts with the events [es]. *)
Lemma bind_before {A B : Type} (m m' : M A) (f : A -> M B) (n n' : nat)
    (es : list event) :
  m n = before es (m' n') ->
  bind m f n = before es (bind m' f n').
Proof.
  intros E. unfold bind. rewrite E.
  destruct (m' n') as [[a| |] p t]; cbn; try reflexivity.
  unfold before; cbn. now rewrite app_assoc.
Qed.

(** The replies from [n] on are statuses that all differ from [x]. *)
Definition never (x : Z) (n : nat) : Prop :=
  forall k, exists s, sensor (n + k)%nat = Status s /\ s <> x.

Lemma never_head (x : Z) (n : nat) :
  never x n -> exists s, sensor n = Status s /\ s <> x.
Proof. intros H. specialize (H 0%nat). now rewrite Nat.add_0_r in H. Qed.

Lemma never_tail (x : Z) (n : nat) : never x n -> never x (S n).
Proof.
  intros H k. specialize (H (S k)).
  now replace (S n + k)%nat with (n + S k)%nat by lia.
Qed.

Lemma wait_image_starves (n : nat) :
  never OK n ->
  forall fuel, exists ss,
    length ss = fuel /\
    wait_image sensor fuel n = Run Starved (n + fuel) (map (Call GetImage) ss).
Proof.
  intros H fuel. revert n H. induction fuel as [|fuel IH]; intros n H.
  - exists []. split; [reflexivity|]. cbn. now rewrite Nat.add_0_r.
  - destruct (never_head _ _ H) as (s & E & Hs).
    destruct (IH (S n) (never_tail _ _ H)) as (ss & Hl & Hw).
    exists (s :: ss). split; [cbn; lia|].
    rewrite wait_image_unfold, E.
    destruct (Z.eqb_spec s OK) as [|_]; [contradiction|].
    rewrite Hw. unfold before; cbn. f_equal. lia.
Qed.

Lemma calls_of_polls (ss : list Z) :
  calls_of (map (Call GetImage) ss) = map (fun s => (GetImage, Status s)) ss.
Proof. induction ss as [|s ss IH]; cbn; [reflexivity|now rewrite IH]. Qed.

Lemma polls_cmds (ss : list Z) :
  map fst (map (fun s => (GetImage, Status s)) ss) =
  repeat GetImage (length ss).
Proof. induction ss as [|s ss IH]; cbn; [reflexivity|now rewrite IH]. Qed.

Lemma calls_of_dots (k : nat) :
  calls_of (dots k) = repeat (GetImage, Status NOFINGER) k.
Proof. induction k as [|k IH]; cbn; [reflexivity|now rewrite IH]. Qed.

Lemma capture_starves (n : nat) :
  (forall k, sensor (n + k)%nat = Status NOFINGER) ->
  forall fuel, capture sensor fuel n = Run Starved (n + fuel) (dots fuel).
Proof.
  pose proof codes_apart as (Hnf & _).
  intros H fuel. revert n H. induction fuel as [|fuel IH]; intros n H.
  - cbn. now rewrite Nat.add_0_r.
  - rewrite capture_unfold.
    pose proof (H 0%nat) as E. rewrite Nat.add_0_r in E. rewrite E.
    destruct (Z.eqb_spec NOFINGER OK) as [E'|_]; [now symmetry in E'|].
    rewrite Z.eqb_refl, IH.
    + unfold before; cbn. f_equal. lia.
    + intros k. specialize (H (S k)).
      now replace (S n + k)%nat with (n + S k)%nat by lia.
Qed.

Lemma wait_removed_starves (n : nat) (i : Z) :
  i <> NOFINGER -> never NOFINGER n ->
  forall fuel, exists ss,
    length ss = fuel /\
    wait_removed sensor fuel i n =
      Run Starved (n + fuel) (map (Call GetImage) ss).
Proof.
  intros Hi H fuel. revert n i Hi H.
  induction fuel as [|fuel IH]; intros n i Hi H;
    rewrite wait_removed_unfold;
    (destruct (Z.eqb_spec i NOFINGER) as [|_]; [contradiction|]).
  - exists []. split; [reflexivity|]. cbn. now rewrite Nat.add_0_r.
  - destruct (never_head _ _ H) as (s & E & Hs). rewrite E.
    destruct (IH (S n) s Hs (never_tail _ _ H)) as (ss & Hl & Hw).
    exists (s :: ss). split; [cbn; lia|].
    rewrite Hw. unfold before; cbn. f_equal. lia.
Qed.

End Identification.

(** A sensor that answers with [rs] and then keeps answering [last]. *)
Definition replay (rs : list reply) (last : reply) : nat -> reply :=
  fun n => nth n rs last.

(** ** Claims about identification and polling *)

(** C1, as stated, fails: with ImagingError as the first CaptureImage
    result, identification polls CaptureImage again and goes on to report
    a match; a sensor that keeps answering ImagingError is polled for as
    long as the budget lasts. *)
Lemma C1_imaging_error_is_polled_past :
  get_fingerprint (replay [Status IMAGEFAIL] (Status OK)) 2 0%nat =
    Run (Done true) 4
      [Print WaitingForImage; Call GetImage IMAGEFAIL; Call GetImage OK;
       Print Templating; Call (Image2Tz 1) OK; Print Searching;
       Call FingerSearch OK] /\
  get_fingerprint (replay [] (Status IMAGEFAIL)) 3 0%nat =
    Run Starved 3
      [Print WaitingForImage; Call GetImage IMAGEFAIL;
       Call GetImage IMAGEFAIL; Call GetImage IMAGEFAIL].
Proof. split; reflexivity. Qed.

(** C1, amended: in identification the CaptureImage polling phase ends
    only on Ok.  A poll answered by any other status, ImagingError
    included, is followed by the run that identification makes from the
    next reply on; and whenever identification returns, the polls before
    the last one were all not Ok and the last one was Ok. *)
Theorem C1_identify_polls_until_ok {codes : StatusCodes}
    (sensor : nat -> reply) (fuel n : nat) :
  (forall s, sensor n = Status s -> s <> OK ->
     res (get_fingerprint sensor (S fuel) n) =
       res (get_fingerprint sensor fuel (S n)) /\
     tr (get_fingerprint sensor (S fuel) n) =
       Print WaitingForImage :: Call GetImage s
         :: tl (tr (get_fingerprint sensor fuel (S n)))) /\
  (forall b, res (get_fingerprint sensor fuel n) = Done b ->
     exists ss rest,
       Forall (fun s => s <> OK) ss /\
       tr (get_fingerprint sensor fuel n) =
         Print WaitingForImage :: map (Call GetImage) ss
           ++ Call GetImage OK :: Print Templating :: rest).
Proof.
  split.
  - intros s E Hs. unfold get_fingerprint. rewrite !bind_print.
    erewrite (bind_before (wait_image sensor (S fuel))
                (wait_image sensor fuel) _ n (S n) [Call GetImage s]).
    + destruct (bind (wait_image sensor fuel) _ (S n)); cbn. auto.
    + rewrite wait_image_unfold, E.
      now destruct (Z.eqb_spec s OK).
  - intros b. unfold get_fingerprint.
    rewrite bind_print, (bind_run (wait_image sensor fuel)).
    pose proof (wait_image_spec sensor fuel n) as Hw.
    destruct (wait_image sensor fuel n) as [rw pw tw]. cbn [res pos tr] in *.
    destruct Hw as [ss Hl Hf|ss Hl Hf|ss Hl Hf]; cbn [before res pos tr];
      try discriminate.
    intros _. rewrite bind_print. cbn [before res pos tr].
    exists ss. eexists. split; [assumption|].
    cbn. rewrite <- app_assoc. reflexivity.
Qed.

Lemma C1_identify_polls_until_ok_witness :
  res (get_fingerprint (replay [Status IMAGEFAIL] (Status OK)) 2 0%nat) =
    res (get_fingerprint (replay [Status IMAGEFAIL] (Status OK)) 1 1%nat) /\
  tr (get_fingerprint (replay [Status IMAGEFAIL] (Status OK)) 2 0%nat) =
    Print WaitingForImage :: Call GetImage IMAGEFAIL
      :: tl (tr (get_fingerprint (replay [Status IMAGEFAIL] (Status OK)) 1 1%nat)).
Proof.
  apply (C1_identify_polls_until_ok
           (replay [Status IMAGEFAIL] (Status OK)) 1%nat 0%nat).
  - reflexivity.
  - discriminate.
Defined.

(** C8: CaptureImage polling has no upper bound of its own.  Against a
    sensor that never gives the exit status of the loop, the polling
    loop of identification and the capture loop of an enrollment pass
    use up every budget: after [fuel] polls the run is still polling,
    whatever [fuel] is. *)
Theorem C8_polling_unbounded {codes : StatusCodes} (sensor : nat -> reply)
    (location : Z) (n : nat) :
  (never sensor OK n ->
   forall fuel,
     res (get_fingerprint sensor fuel n) = Starved /\
     map fst (calls_of (tr (get_fingerprint sensor fuel n))) =
       repeat GetImage fuel) /\
  ((forall k, sensor (n + k)%nat = Status NOFINGER) ->
   forall fuel,
     capture sensor fuel n = Run Starved (n + fuel) (dots fuel) /\
     res (enroll_finger sensor fuel location n) = Starved /\
     map fst (calls_of (tr (enroll_finger sensor fuel location n))) =
       repeat GetImage fuel).
Proof.
  split.
  - intros H fuel.
    destruct (wait_image_starves sensor n H fuel) as (ss & Hl & Hw).
    unfold get_fingerprint.
    rewrite bind_print, (bind_run (wait_image sensor fuel)), Hw.
    cbn. split; [reflexivity|].
    now rewrite calls_of_polls, polls_cmds, Hl.
  - intros H fuel.
    pose proof (capture_starves sensor n H fuel) as Hc.
    split; [exact Hc|].
    assert (Hp : enroll_pass sensor fuel 1 n =
                   Run Starved (n + fuel) (Print PlaceFinger :: dots fuel)).
    { unfold enroll_pass. change (1 =? 1) with true. cbv iota.
      now rewrite bind_print, (bind_run (capture sensor fuel)), Hc. }
    unfold enroll_finger. cbn [for_each].
    rewrite (bind_run (enroll_pass sensor fuel 1)), Hp.
    cbn [res pos tr calls_of]. split; [reflexivity|].
    rewrite calls_of_dots, map_repeat. reflexivity.
Qed.

Lemma C8_polling_unbounded_witness :
  (forall fuel,
     res (get_fingerprint (replay [] (Status NOFINGER)) fuel 0%nat) = Starved /\
     map fst (calls_of
       (tr (get_fingerprint (replay [] (Status NOFINGER)) fuel 0%nat))) =
       repeat GetImage fuel) /\
  (forall fuel,
     capture (replay [] (Status NOFINGER)) fuel 0%nat =
       Run Starved (0 + fuel) (dots fuel) /\
     res (enroll_finger (replay [] (Status NOFINGER)) fuel 1 0%nat) =
       Starved /\
     map fst (calls_of
       (tr (enroll_finger (replay [] (Status NOFINGER)) fuel 1 0%nat))) =
       repeat GetImage fuel).
Proof.
  split.
  - apply (C8_polling_unbounded (replay [] (Status NOFINGER)) 1 0%nat).
    intros k. exists NOFINGER. split; [now destruct k|discriminate].
  - apply (C8_polling_unbounded (replay [] (Status NOFINGER)) 1 0%nat).
    intros k. now destruct k.
Defined.

(** C10: the wait for the finger to be lifted ends only on
    NoFingerPresent.  A poll answered by any other status, ImagingError
    included, is followed by another poll and nothing else; when the wait
    returns, the status it holds is NoFingerPresent; and against a sensor
    that never reports NoFingerPresent the wait uses up every budget. *)
Theorem C10_lift_wait_exits_only_on_nofinger {codes : StatusCodes}
    (sensor : nat -> reply) (i : Z) (n : nat) :
  (forall fuel s,
     i <> NOFINGER -> sensor n = Status s -> s <> NOFINGER ->
     wait_removed sensor (S fuel) i n =
       before [Call GetImage s] (wait_removed sensor fuel s (S n))) /\
  (forall fuel,
     i <> NOFINGER -> sensor n = Status IMAGEFAIL ->
     wait_removed sensor (S fuel) i n =
       before [Call GetImage IMAGEFAIL]
         (wait_removed sensor fuel IMAGEFAIL (S n))) /\
  (forall fuel x,
     res (wait_removed sensor fuel i n) = Done x ->
     x = NOFINGER /\
     (i <> NOFINGER ->
      exists ss,
        Forall (fun s => s <> NOFINGER) ss /\
        tr (wait_removed sensor fuel i n) =
          map (Call GetImage) ss ++ [Call GetImage NOFINGER])) /\
  (i <> NOFINGER -> never sensor NOFINGER n ->
   forall fuel,
     res (wait_removed sensor fuel i n) = Starved /\
     map fst (calls_of (tr (wait_removed sensor fuel i n))) =
       repeat GetImage fuel).
Proof.
  assert (Hstep : forall fuel s,
     i <> NOFINGER -> sensor n = Status s -> s <> NOFINGER ->
     wait_removed sensor (S fuel) i n =
       before [Call GetImage s] (wait_removed sensor fuel s (S n))).
  { intros fuel s Hi E Hs. rewrite wait_removed_unfold, E.
    now destruct (Z.eqb_spec i NOFINGER). }
  split; [exact Hstep|]. split; [|split].
  - intros fuel Hi E. apply Hstep; [assumption..|].
    pose proof codes_apart as (_ & _ & _ & _ & _ & _ & _ & _ & H & _).
    intros E'. now symmetry in E'.
  - intros fuel x.
    pose proof (wait_removed_spec sensor fuel i n) as Hw.
    destruct (wait_removed sensor fuel i n) as [rw pw tw].
    cbn [res pos tr] in *.
    destruct Hw as [Hi|ss Hi Hl Hf|ss Hi Hl Hf|ss Hi Hl Hf];
      intros E; try discriminate; injection E as <-.
    + split; [assumption|]. intros Hn. contradiction.
    + split; [reflexivity|]. intros _. now exists ss.
  - intros Hi H fuel.
    destruct (wait_removed_starves sensor n i Hi H fuel) as (ss & Hl & Hw).
    rewrite Hw. cbn. split; [reflexivity|].
    now rewrite calls_of_polls, polls_cmds, Hl.
Qed.

(** An enrollment that meets ImagingError while it waits for the finger
    to be lifted, polls on, and is stored. *)
Definition lift_with_error : nat -> reply :=
  replay [Status OK; Status OK; Status IMAGEFAIL; Status NOFINGER]
    (Status OK).

Lemma C10_lift_wait_exits_only_on_nofinger_witness :
  wait_removed lift_with_error 2 OK 2%nat =
    before [Call GetImage IMAGEFAIL]
      (wait_removed lift_with_error 1 IMAGEFAIL 3%nat) /\
  res (enroll_finger lift_with_error 2 7 0%nat) = Done true.
Proof.
  split.
  - apply (C10_lift_wait_exits_only_on_nofinger lift_with_error OK 2%nat).
    + discriminate.
    + reflexivity.
  - reflexivity.
Defined.

(** ** Claims about the menu branches *)

(** C3, as stated, fails: an out-of-range slot id is not rejected with
    any error.  The enroll and delete branches end normally, print
    nothing and give the caller nothing that tells a skipped request from
    a served one. *)
Lemma C3_out_of_range_is_not_reported :
  main_enroll (replay [] (Status OK)) 5 (Some 0) 0%nat =
    Run (Done tt) 0 [Led 1; Input (Some 0); Led 0] /\
  main_delete (replay [] (Status OK)) (Some 128) 0%nat =
    Run (Done tt) 0 [Input (Some 128)] /\
  prints_of (tr (main_enroll (replay [] (Status OK)) 5 (Some 0) 0%nat)) = [] /\
  prints_of (tr (main_delete (replay [] (Status OK)) (Some 128) 0%nat)) = [] /\
  res (main_delete (replay [] (Status OK)) (Some 128) 0%nat) =
    res (main_delete (replay [] (Status OK)) (Some 5) 0%nat).
Proof. repeat split; reflexivity. Qed.

(** C3, amended: for every slot id outside [1, 127] the enroll and
    delete branches make no round trip to the sensor: the request is
    skipped silently, the branch ends normally and nothing is printed. *)
Theorem C3_out_of_range_no_round_trip {codes : StatusCodes}
    (sensor : nat -> reply) (fuel : nat) (location : Z) (n : nat) :
  ~ (1 <= location <= 127) ->
  main_enroll sensor fuel (Some location) n =
    Run (Done tt) n [Led 1; Input (Some location); Led 0] /\
  main_delete sensor (Some location) n =
    Run (Done tt) n [Input (Some location)].
Proof.
  intros H.
  assert (E : (location >? 0) && (location <? 128) = false).
  { destruct (Z.gtb_spec location 0), (Z.ltb_spec location 128);
      cbn; try reflexivity. lia. }
  unfold main_enroll, main_delete, bind, input_int. cbn [res pos tr].
  rewrite E. split; reflexivity.
Qed.

Lemma C3_out_of_range_no_round_trip_witness :
  main_enroll (replay [] (Status OK)) 5 (Some 128) 3%nat =
    Run (Done tt) 3 [Led 1; Input (Some 128); Led 0] /\
  main_delete (replay [] (Status OK)) (Some 128) 3%nat =
    Run (Done tt) 3 [Input (Some 128)].
Proof.
  apply (C3_out_of_range_no_round_trip (replay [] (Status OK)) 5 128 3%nat).
  lia.
Defined.

(** C6, as stated, fails: the LED is set and cleared by two plain
    statements around the protocol.  When a round trip raises inside
    identification or enrollment, or when the polling never ends, the
    line has been set and is not cleared. *)
Lemma C6_led_left_on :
  main_find (replay [Raise] (Status OK)) 5 0%nat =
    Run Raised 1 [Led 1; Print WaitingForImage; Fault GetImage] /\
  main_enroll (replay [Raise] (Status OK)) 5 (Some 1) 0%nat =
    Run Raised 1 [Led 1; Input (Some 1); Print PlaceFinger; Fault GetImage] /\
  leds_of (tr (main_find (replay [] (Status NOFINGER)) 9 0%nat)) = [1] /\
  res (main_find (replay [] (Status NOFINGER)) 9 0%nat) = Starved.
Proof. repeat split; reflexivity. Qed.

Definition not_led (e : event) : Prop :=
  match e with Led _ => False | _ => True end.

Lemma not_led_leds (t : list event) : Forall not_led t -> leds_of t = [].
Proof.
  induction 1 as [|e t He _ IH]; [reflexivity|].
  destruct e; cbn in *; try assumption; contradiction.
Qed.

Lemma no_led_not_led (e : event) : no_led e -> not_led e.
Proof. now destruct e. Qed.

(** What is written to the LED line by a computation run between
    [set_value(1)] and [set_value(0)]. *)
Definition bracketed (r : run unit) : Prop :=
  (res r = Done tt ->
   leds_of (tr r) = [1; 0] /\ exists mid, tr r = Led 1 :: mid ++ [Led 0]) /\
  (res r <> Done tt ->
   leds_of (tr r) = [1] /\ exists rest, tr r = Led 1 :: rest).

Lemma led_bracket {codes : StatusCodes} {A : Type} (m : M A) (n : nat) :
  emits not_led m ->
  bracketed (before [Led 1] (bind m (fun _ => emit (Led 0)) n)).
Proof.
  intros H. specialize (H n). apply not_led_leds in H.
  unfold bracketed, bind. destruct (m n) as [[a| |] p t]; cbn in *.
  - split; [intros _|congruence].
    rewrite leds_of_app, H. split; [reflexivity|]. now exists t.
  - split; [discriminate|intros _]. rewrite H. split; [reflexivity|eauto].
  - split; [discriminate|intros _]. rewrite H. split; [reflexivity|eauto].
Qed.

(** C6, amended: around identification and around enrollment the LED
    is set first; it is cleared, as the last thing, when the branch ends
    normally, whether the protocol succeeded or failed.  When the branch
    is left by an exception or never ends, the line stays set. *)
Theorem C6_led_cleared_when_branch_returns {codes : StatusCodes}
    (sensor : nat -> reply) (fuel : nat) (typed : option Z) (n : nat) :
  bracketed (main_find sensor fuel n) /\
  bracketed (main_enroll sensor fuel typed n).
Proof.
  split.
  - unfold main_find. rewrite bind_emit, <- bind_assoc.
    apply led_bracket.
    apply emits_bind.
    + eapply emits_weaken;
        [apply no_led_not_led|apply get_fingerprint_no_led].
    + intros [|]; apply emits_print; exact I.
  - unfold main_enroll. rewrite bind_emit, <- bind_assoc.
    apply led_bracket.
    apply emits_bind.
    + intros k. destruct typed; cbn; repeat constructor.
    + intros location. apply emits_if; [|apply emits_ret].
      apply emits_bind; [|intros _; apply emits_ret].
      eapply emits_weaken;
        [apply no_led_not_led|apply enroll_finger_no_led].
Qed.

(** ** Claims about enrollment *)

Section PassSteps.

Context {codes : StatusCodes}.
Variable sensor : nat -> reply.

(** A pass in terms of its capture loop. *)
Lemma enroll_pass_capture (fuel : nat) (f : Z) (n : nat) :
  enroll_pass sensor fuel f n =
  before [Print (prompt f)]
    (bind (capture sensor fuel)
       (fun r =>
          match r with
          | Some b => ret (Some b)
          | None =>
              bind (print Templating) (fun _ =>
              bind (call sensor (Image2Tz f)) (fun i =>
              if i =? OK then
                bind (print Templated) (fun _ =>
                if f =? 1 then
                  bind (print RemoveFinger) (fun _ =>
                  bind (emit (Sleep 1)) (fun _ =>
                  bind (wait_removed sensor fuel i) (fun _ => ret None)))
                else ret None)
              else bind (print (template_failure i))
                     (fun _ => ret (Some false))))
          end) n).
Proof.
  unfold enroll_pass, prompt. destruct (f =? 1); now rewrite bind_print.
Qed.

(** The enrollment in terms of its passes. *)
Lemma enroll_finger_passes (fuel : nat) (location : Z) (n : nat) :
  enroll_finger sensor fuel location n =
  let p1 := enroll_pass sensor fuel 1 n in
  match res p1 with
  | Done (Some b) => Run (Done b) (pos p1) (tr p1)
  | Done None =>
      let p2 := enroll_pass sensor fuel 2 (pos p1) in
      match res p2 with
      | Done (Some b) => Run (Done b) (pos p2) (tr p1 ++ tr p2)
      | Done None =>
          before (tr p1 ++ tr p2) (enroll_store sensor location (pos p2))
      | Raised => Run Raised (pos p2) (tr p1 ++ tr p2)
      | Starved => Run Starved (pos p2) (tr p1 ++ tr p2)
      end
  | Raised => Run Raised (pos p1) (tr p1)
  | Starved => Run Starved (pos p1) (tr p1)
  end.
Proof.
  unfold enroll_finger. cbn [for_each].
  rewrite (bind_run (enroll_pass sensor fuel 1)). cbv zeta.
  destruct (enroll_pass sensor fuel 1 n) as [[[b|]| |] p1 t1];
    cbn [res pos tr]; try reflexivity.
  - unfold ret, before; cbn. now rewrite app_nil_r.
  - rewrite (bind_run (enroll_pass sensor fuel 2)).
    destruct (enroll_pass sensor fuel 2 p1) as [[[b|]| |] p2 t2];
      cbn [res pos tr before]; try reflexivity.
    + unfold ret, before; cbn. now rewrite app_nil_r.
    + unfold before; cbn. now rewrite app_assoc.
Qed.

End PassSteps.

(** C5: in a pass, a CaptureImage poll answered NoFingerPresent is
    followed by another poll; one answered ImagingError ends the capture
    with failure; a capture that failed, and a feature extraction that
    gave anything but Ok after a successful capture, end the pass with
    failure; and a failed first or second pass ends the enrollment with
    [False], nothing more being done. *)
Theorem C5_pass_polls_and_fails {codes : StatusCodes}
    (sensor : nat -> reply) (fuel : nat) (location : Z) (n : nat) :
  (sensor n = Status NOFINGER ->
   capture sensor (S fuel) n =
     before [Call GetImage NOFINGER; Print Dot] (capture sensor fuel (S n))) /\
  (sensor n = Status IMAGEFAIL ->
   capture sensor (S fuel) n =
     Run (Done (Some false)) (S n)
       [Call GetImage IMAGEFAIL; Print ImagingError]) /\
  (forall f b,
     res (capture sensor fuel n) = Done (Some b) ->
     enroll_pass sensor fuel f n =
       Run (Done (Some b)) (pos (capture sensor fuel n))
         (Print (prompt f) :: tr (capture sensor fuel n))) /\
  (forall f s,
     res (capture sensor fuel n) = Done None ->
     sensor (pos (capture sensor fuel n)) = Status s -> s <> OK ->
     enroll_pass sensor fuel f n =
       Run (Done (Some false)) (S (pos (capture sensor fuel n)))
         (Print (prompt f) :: tr (capture sensor fuel n)
            ++ [Print Templating; Call (Image2Tz f) s;
                Print (template_failure s)])) /\
  (forall b,
     res (enroll_pass sensor fuel 1 n) = Done (Some b) ->
     enroll_finger sensor fuel location n =
       Run (Done b) (pos (enroll_pass sensor fuel 1 n))
         (tr (enroll_pass sensor fuel 1 n))) /\
  (forall b,
     res (enroll_pass sensor fuel 1 n) = Done None ->
     res (enroll_pass sensor fuel 2 (pos (enroll_pass sensor fuel 1 n))) =
       Done (Some b) ->
     enroll_finger sensor fuel location n =
       Run (Done b)
         (pos (enroll_pass sensor fuel 2 (pos (enroll_pass sensor fuel 1 n))))
         (tr (enroll_pass sensor fuel 1 n)
            ++ tr (enroll_pass sensor fuel 2
                     (pos (enroll_pass sensor fuel 1 n))))).
Proof.
  pose proof codes_apart as (Hnf & Hif & _ & _ & _ & _ & _ & _ & Hni & _).
  repeat split.
  - intros E. rewrite capture_unfold, E.
    destruct (Z.eqb_spec NOFINGER OK) as [E'|_]; [now symmetry in E'|].
    now rewrite Z.eqb_refl.
  - intros E. rewrite capture_unfold, E.
    destruct (Z.eqb_spec IMAGEFAIL OK) as [E'|_]; [now symmetry in E'|].
    destruct (Z.eqb_spec IMAGEFAIL NOFINGER) as [E'|_];
      [now symmetry in E'|].
    unfold capture_failure. now rewrite Z.eqb_refl.
  - intros f b E. rewrite enroll_pass_capture, bind_run, E.
    unfold before, ret; cbn. now rewrite app_nil_r.
  - intros f s E Es Hs. rewrite enroll_pass_capture, bind_run, E.
    rewrite bind_print, (bind_call_status sensor _ _ _ s Es).
    destruct (Z.eqb_spec s OK) as [|_]; [contradiction|].
    rewrite bind_print. reflexivity.
  - intros b E. rewrite enroll_finger_passes. cbv zeta. now rewrite E.
  - intros b E1 E2. rewrite enroll_finger_passes. cbv zeta.
    now rewrite E1, E2.
Qed.

(** The first capture meets an imaging error after one empty poll; the
    second sensor gives a messy image in the second pass. *)
Definition imaging_error_later : nat -> reply :=
  replay [Status NOFINGER; Status IMAGEFAIL] (Status OK).

Definition messy_second : nat -> reply :=
  replay [Status OK; Status OK; Status NOFINGER; Status OK; Status IMAGEMESS]
    (Status OK).

Lemma C5_pass_polls_and_fails_witness :
  capture imaging_error_later 2 0%nat =
    before [Call GetImage NOFINGER; Print Dot]
      (capture imaging_error_later 1 1%nat) /\
  capture imaging_error_later 1 1%nat =
    Run (Done (Some false)) 2 [Call GetImage IMAGEFAIL; Print ImagingError] /\
  enroll_finger imaging_error_later 2 7 0%nat =
    Run (Done false) 2
      [Print PlaceFinger; Call GetImage NOFINGER; Print Dot;
       Call GetImage IMAGEFAIL; Print ImagingError] /\
  enroll_finger messy_second 2 7 0%nat =
    Run (Done false) 5
      [Print PlaceFinger; Call GetImage OK; Print ImageTaken;
       Print Templating; Call (Image2Tz 1) OK; Print Templated;
       Print RemoveFinger; Sleep 1; Call GetImage NOFINGER;
       Print PlaceSameAgain; Call GetImage OK; Print ImageTaken;
       Print Templating; Call (Image2Tz 2) IMAGEMESS; Print ImageTooMessy].
Proof.
  split; [|split; [|split]].
  - apply (C5_pass_polls_and_fails imaging_error_later 1 7 0%nat).
    reflexivity.
  - apply (C5_pass_polls_and_fails imaging_error_later 0 7 1%nat).
    reflexivity.
  - destruct (C5_pass_polls_and_fails imaging_error_later 2 7 0%nat)
      as (_ & _ & _ & _ & H & _).
    rewrite (H false); reflexivity.
  - destruct (C5_pass_polls_and_fails messy_second 2 7 0%nat)
      as (_ & _ & _ & _ & _ & H).
    rewrite (H false); reflexivity.
Defined.

Section EnrollmentFacts.

Context {codes : StatusCodes}.

Lemma pass_events_no_store (t : list event) :
  Forall pass_event t -> Forall (fun e => store_event e = false) t.
Proof.
  apply Forall_impl. intros e H.
  now apply model_store_event, pass_event_model.
Qed.

Lemma pass_events_no_model (t : list event) (e : event) :
  Forall pass_event t -> model_event e = true -> ~ In e t.
Proof.
  intros H He Hin. rewrite Forall_forall in H.
  apply H, pass_event_model in Hin. congruence.
Qed.

(** Events other than the prompt of the second pass. *)
Definition not_again (e : event) : Prop := e <> Print PlaceSameAgain.

Lemma body_not_again (t : list event) :
  Forall body_event t -> Forall not_again t.
Proof. apply Forall_impl. intros e H ->. exact H. Qed.

Lemma store_case_not_again (location : Z) (r : result bool) (t : list event) :
  store_case location r t -> Forall not_again t.
Proof.
  intros H; destruct H; repeat constructor; try discriminate;
    unfold not_again, model_failure, store_failure;
    repeat match goal with |- context [if ?b then _ else _] => destruct b end;
    discriminate.
Qed.

Lemma pass1_not_again (k : nat) (ss : list Z) : Forall not_again (pass1 k ss).
Proof.
  destruct (pass1_body k ss) as (t & -> & H).
  constructor; [discriminate|now apply body_not_again].
Qed.

End EnrollmentFacts.

(** C2: whenever BuildModel answers EnrollMismatch in an enrollment run,
    the enrollment returns [False] and no round trip of StoreModel takes
    place in that run. *)
Theorem C2_mismatch_never_stores {codes : StatusCodes}
    (sensor : nat -> reply) (fuel : nat) (location : Z) (n : nat) :
  In (Call CreateModel ENROLLMISMATCH)
     (tr (enroll_finger sensor fuel location n)) ->
  res (enroll_finger sensor fuel location n) = Done false /\
  Forall (fun e => store_event e = false)
    (tr (enroll_finger sensor fuel location n)).
Proof.
  pose proof codes_apart as (_ & _ & _ & _ & _ & Hmm & _).
  pose proof (enroll_finger_spec sensor fuel location n) as H.
  destruct (enroll_finger sensor fuel location n) as [r p t].
  cbn [res pos tr] in *. intros Hin.
  destruct H as [r t Hs|k ss r t Hss Hs|k1 ss k2 r t Hss Hs].
  - exfalso. revert Hin.
    apply pass_events_no_model; [|reflexivity].
    eapply pass_stop_events, Hs.
  - exfalso. revert Hin.
    apply pass_events_no_model; [|reflexivity].
    apply Forall_app. split; [apply pass1_events|].
    eapply pass_stop_events, Hs.
  - rewrite !in_app_iff in Hin. destruct Hin as [Hin|[Hin|Hin]].
    + exfalso. revert Hin.
      apply pass_events_no_model; [apply pass1_events|reflexivity].
    + exfalso. revert Hin.
      apply pass_events_no_model; [apply pass2_events|reflexivity].
    + assert (Hp : forall u, Forall (fun e => store_event e = false) u ->
                Forall (fun e => store_event e = false)
                  (pass1 k1 ss ++ pass2 k2 ++ u)).
      { intros u Hu. repeat (apply Forall_app; split); try assumption.
        - apply pass_events_no_store, pass1_events.
        - apply pass_events_no_store, pass2_events. }
      destruct Hs as [|s Hs| |s Hs|]; cbn [In] in Hin.
      * exfalso. intuition discriminate.
      * split; [reflexivity|]. apply Hp. now repeat constructor.
      * exfalso. intuition (try discriminate). congruence.
      * exfalso. intuition (try discriminate). congruence.
      * exfalso. intuition (try discriminate). congruence.
Qed.

(** Two captures of different fingers. *)
Definition mismatch : nat -> reply :=
  replay [Status OK; Status OK; Status NOFINGER; Status OK; Status OK;
          Status ENROLLMISMATCH] (Status OK).

Lemma C2_mismatch_never_stores_witness :
  res (enroll_finger mismatch 2 7 0%nat) = Done false /\
  Forall (fun e => store_event e = false)
    (tr (enroll_finger mismatch 2 7 0%nat)).
Proof.
  apply (C2_mismatch_never_stores mismatch 2 7 0%nat).
  vm_compute. tauto.
Defined.

(** C4: the second pass starts only after the finger has been lifted.
    Wherever the prompt of the second pass stands in the trace of an
    enrollment, what comes right before it is the successful extraction
    of pass 1, the request to remove the finger, CaptureImage polls that
    did not report NoFingerPresent, and one last poll that did. *)
Theorem C4_second_pass_after_lift {codes : StatusCodes}
    (sensor : nat -> reply) (fuel : nat) (location : Z) (n : nat)
    (pre post : list event) :
  tr (enroll_finger sensor fuel location n) =
    pre ++ Print PlaceSameAgain :: post ->
  exists head ss,
    Forall (fun s => s <> NOFINGER) ss /\
    pre = head ++ templated 1 ++ lifted ss.
Proof.
  pose proof (enroll_finger_spec sensor fuel location n) as H.
  destruct (enroll_finger sensor fuel location n) as [r p t].
  cbn [res pos tr] in *. intros E.
  assert (Hsplit : forall k ss u,
            Forall (fun s => s <> NOFINGER) ss -> Forall not_again u ->
            pass1 k ss ++ Print PlaceSameAgain :: u =
              pre ++ Print PlaceSameAgain :: post ->
            exists head ss,
              Forall (fun s => s <> NOFINGER) ss /\
              pre = head ++ templated 1 ++ lifted ss).
  { intros k ss u Hss Hu E'.
    apply (split_once not_again) in E';
      [|apply pass1_not_again|assumption|now intros F; apply F..].
    destruct E' as (-> & _). exists (Print PlaceFinger :: captured k), ss.
    split; [assumption|]. unfold pass1. cbn. reflexivity. }
  destruct H as [r t Hs|k ss r t Hss Hs|k1 ss k2 r t Hss Hs].
  - exfalso. destruct (pass_stop_body _ _ _ _ Hs) as (u & -> & Hu).
    assert (Hall : Forall not_again (Print (prompt 1) :: u)).
    { constructor; [discriminate|now apply body_not_again]. }
    rewrite E, Forall_forall in Hall.
    apply (Hall (Print PlaceSameAgain)); [apply in_elt|reflexivity].
  - destruct (pass_stop_body _ _ _ _ Hs) as (u & -> & Hu).
    apply (Hsplit k ss u); [assumption|now apply body_not_again|exact E].
  - destruct (pass2_body k2) as (u & Hu & Hbody). rewrite Hu in E.
    apply (Hsplit k1 ss (u ++ t)); [assumption| |exact E].
    apply Forall_app. split; [now apply body_not_again|].
    eapply store_case_not_again, Hs.
Qed.

(** A stored enrollment in which the finger rests for two polls before
    it is lifted. *)
Definition slow_lift : nat -> reply :=
  replay [Status OK; Status OK; Status OK; Status OK; Status NOFINGER]
    (Status OK).

Lemma C4_second_pass_after_lift_witness :
  exists head ss,
    Forall (fun s => s <> NOFINGER) ss /\
    [Print PlaceFinger; Call GetImage OK; Print ImageTaken;
     Print Templating; Call (Image2Tz 1) OK; Print Templated;
     Print RemoveFinger; Sleep 1; Call GetImage OK; Call GetImage OK;
     Call GetImage NOFINGER] = head ++ templated 1 ++ lifted ss.
Proof.
  apply (C4_second_pass_after_lift slow_lift 3 7 0%nat _
           [Call GetImage OK; Print ImageTaken; Print Templating;
            Call (Image2Tz 2) OK; Print Templated; Print CreatingModel;
            Call CreateModel OK; Print Created; Print (StoringModel 7);
            Call (StoreModel 7) OK; Print Stored]).
  reflexivity.
Defined.

(** Equal lists up to the bracketing of appends. *)
Ltac list_eq :=
  repeat (rewrite <- ?app_assoc; cbn [app]); reflexivity.

(** ** Identification: the shape of every run *)

Section IdentifyRuns.

Context {codes : StatusCodes}.
Variable sensor : nat -> reply.

(** The trace of identification up to and including the image. *)
Definition imaged (ss : list Z) : list event :=
  Print WaitingForImage :: map (Call GetImage) ss
    ++ [Call GetImage OK; Print Templating].

(** The ways identification can end; [ss] are the statuses polled
    past. *)
Inductive identify_case (fuel : nat) : result bool -> list event -> Prop :=
| id_wait_raise (ss : list Z) :
    Forall (fun s => s <> OK) ss ->
    identify_case fuel Raised
      (Print WaitingForImage :: map (Call GetImage) ss ++ [Fault GetImage])
| id_wait_starve (ss : list Z) :
    Forall (fun s => s <> OK) ss -> length ss = fuel ->
    identify_case fuel Starved
      (Print WaitingForImage :: map (Call GetImage) ss)
| id_extract_raise (ss : list Z) :
    Forall (fun s => s <> OK) ss ->
    identify_case fuel Raised (imaged ss ++ [Fault (Image2Tz 1)])
| id_extract_fail (ss : list Z) (s : Z) :
    Forall (fun s => s <> OK) ss -> s <> OK ->
    identify_case fuel (Done false) (imaged ss ++ [Call (Image2Tz 1) s])
| id_search_raise (ss : list Z) :
    Forall (fun s => s <> OK) ss ->
    identify_case fuel Raised
      (imaged ss ++ [Call (Image2Tz 1) OK; Print Searching;
                     Fault FingerSearch])
| id_search_fail (ss : list Z) (s : Z) :
    Forall (fun s => s <> OK) ss -> s <> OK ->
    identify_case fuel (Done false)
      (imaged ss ++ [Call (Image2Tz 1) OK; Print Searching;
                     Call FingerSearch s])
| id_found (ss : list Z) :
    Forall (fun s => s <> OK) ss ->
    identify_case fuel (Done true)
      (imaged ss ++ [Call (Image2Tz 1) OK; Print Searching;
                     Call FingerSearch OK]).

Lemma identify_case_eq (fuel : nat) (r : result bool) (t u : list event) :
  identify_case fuel r t -> t = u -> identify_case fuel r u.
Proof. now intros H <-. Qed.

Lemma get_fingerprint_spec (fuel n : nat) :
  identify_case fuel (res (get_fingerprint sensor fuel n))
    (tr (get_fingerprint sensor fuel n)).
Proof.
  unfold get_fingerprint.
  rewrite bind_print, (bind_run (wait_image sensor fuel)).
  pose proof (wait_image_spec sensor fuel n) as Hw.
  destruct (wait_image sensor fuel n) as [rw pw tw]. cbn [res pos tr] in *.
  destruct Hw as [ss Hl Hf|ss Hl Hf|ss Hl Hf]; cbn [before res pos tr].
  - rewrite bind_print.
    destruct (sensor pw) as [s|] eqn:E.
    + rewrite (bind_call_status sensor _ _ _ s E).
      destruct (Z.eqb_spec s OK) as [->|Hs]; cbn [negb].
      * rewrite bind_print.
        destruct (sensor (S pw)) as [s'|] eqn:E'.
        -- rewrite (bind_call_status sensor _ _ _ s' E').
           destruct (Z.eqb_spec s' OK) as [->|Hs']; cbn [negb];
             cbn [before ret res pos tr].
           ++ eapply identify_case_eq; [apply (id_found fuel ss Hf)|].
              unfold imaged. list_eq.
           ++ eapply identify_case_eq;
                [apply (id_search_fail fuel ss s' Hf Hs')|].
              unfold imaged. list_eq.
        -- rewrite (bind_call_raise sensor _ _ _ E').
           cbn [before res pos tr].
           eapply identify_case_eq; [apply (id_search_raise fuel ss Hf)|].
           unfold imaged. list_eq.
      * cbn [before ret res pos tr].
        eapply identify_case_eq; [apply (id_extract_fail fuel ss s Hf Hs)|].
        unfold imaged. list_eq.
    + rewrite (bind_call_raise sensor _ _ _ E). cbn [before res pos tr].
      eapply identify_case_eq; [apply (id_extract_raise fuel ss Hf)|].
      unfold imaged. list_eq.
  - eapply identify_case_eq; [apply (id_wait_raise fuel ss Hf)|]. list_eq.
  - eapply identify_case_eq; [apply (id_wait_starve fuel ss Hf Hl)|]. list_eq.
Qed.

End IdentifyRuns.



(** ** Round trips that end a composite *)



Section Verdicts.

Context {codes : StatusCodes}.





















End Verdicts.



Section Success.

Context {codes : StatusCodes}.

(** A CaptureImage round trip that gave status [s]. *)
Definition poll (s : Z) : cmd * reply := (GetImage, Status s).

(** The round trips of an enrollment up to and including a successful
    BuildModel: [k1] empty polls and a capture, extraction into slot 1,
    the wait for the finger to be lifted past [ss], [k2] empty polls and
    a capture, extraction into slot 2, and the model. *)
Definition ready_calls (k1 : nat) (ss : list Z) (k2 : nat) :
    list (cmd * reply) :=
  repeat (poll NOFINGER) k1 ++ [poll OK; (Image2Tz 1, Status OK)]
    ++ map poll ss ++ [poll NOFINGER]
    ++ repeat (poll NOFINGER) k2 ++ [poll OK; (Image2Tz 2, Status OK)]
    ++ [(CreateModel, Status OK)].

Definition ready (cs : list (cmd * reply)) : Prop :=
  exists k1 ss k2,
    Forall (fun s => s <> NOFINGER) ss /\ cs = ready_calls k1 ss k2.

Definition is_store (c : cmd * reply) : bool :=
  match fst c with StoreModel _ => true | _ => false end.

Definition no_store (c : cmd * reply) : Prop := is_store c = false.

Lemma calls_of_pass1 (k : nat) (ss : list Z) :
  calls_of (pass1 k ss) =
    repeat (poll NOFINGER) k ++ [poll OK; (Image2Tz 1, Status OK)]
      ++ map poll ss ++ [poll NOFINGER].
Proof.
  unfold pass1, captured, templated, lifted. cbn [calls_of].
  rewrite !calls_of_app, calls_of_dots, calls_of_polls. cbn [calls_of app].
  rewrite <- !app_assoc. reflexivity.
Qed.

Lemma calls_of_pass2 (k : nat) :
  calls_of (pass2 k) =
    repeat (poll NOFINGER) k ++ [poll OK; (Image2Tz 2, Status OK)].
Proof.
  unfold pass2, captured, templated. cbn [calls_of].
  rewrite !calls_of_app, calls_of_dots. cbn [calls_of app].
  rewrite <- !app_assoc. reflexivity.
Qed.

Lemma pass_calls_no_store (t : list event) :
  Forall pass_event t -> Forall no_store (calls_of t).
Proof.
  induction 1 as [|e t He _ IH]; [constructor|].
  destruct e as [c s|c|m|x|v|v]; cbn in *; try assumption;
    constructor; try assumption; destruct c; (reflexivity || contradiction).
Qed.

Lemma ready_calls_eq (k1 : nat) (ss : list Z) (k2 : nat) :
  calls_of (pass1 k1 ss) ++ calls_of (pass2 k2)
    ++ [(CreateModel, Status OK)] = ready_calls k1 ss k2.
Proof.
  rewrite calls_of_pass1, calls_of_pass2. unfold ready_calls.
  rewrite <- !app_assoc. reflexivity.
Qed.

Lemma ready_no_store (k1 : nat) (ss : list Z) (k2 : nat) :
  Forall no_store (ready_calls k1 ss k2).
Proof.
  rewrite <- ready_calls_eq.
  repeat (apply Forall_app; split).
  - apply pass_calls_no_store, pass1_events.
  - apply pass_calls_no_store, pass2_events.
  - now repeat constructor.
Qed.

(** The round trips of an enrollment, by the way it ended: without any
    StoreModel, or with one StoreModel as the last round trip after the
    steps before it all gave Ok. *)
Lemma enroll_calls (fuel : nat) (location : Z) (r : result bool)
    (t : list event) :
  enroll_case fuel location r t ->
  (r <> Done true /\ Forall no_store (calls_of t)) \/
  (exists k1 ss k2 x,
     Forall (fun s => s <> NOFINGER) ss /\
     calls_of t = ready_calls k1 ss k2 ++ [(StoreModel location, x)] /\
     (r = Done true <-> x = Status OK)).
Proof.
  intros H. destruct H as [r t Hs|k ss r t Hss Hs|k1 ss k2 r t Hss Hs].
  - left. split; [now destruct Hs|].
    eapply pass_calls_no_store, pass_stop_events, Hs.
  - left. split; [now destruct Hs|].
    apply pass_calls_no_store, Forall_app.
    split; [apply pass1_events|eapply pass_stop_events, Hs].
  - rewrite !calls_of_app.
    assert (Hp : Forall no_store (calls_of (pass1 k1 ss))).
    { apply pass_calls_no_store, pass1_events. }
    assert (Hq : Forall no_store (calls_of (pass2 k2))).
    { apply pass_calls_no_store, pass2_events. }
    destruct Hs as [|s Hs| |s Hs|]; cbn [calls_of].
    + left. split; [discriminate|].
      repeat (apply Forall_app; split); try assumption.
      now repeat constructor.
    + left. split; [discriminate|].
      repeat (apply Forall_app; split); try assumption.
      now repeat constructor.
    + right. exists k1, ss, k2, Raise. split; [assumption|].
      rewrite <- ready_calls_eq. split; [list_eq|].
      split; discriminate.
    + right. exists k1, ss, k2, (Status s). split; [assumption|].
      rewrite <- ready_calls_eq. split; [list_eq|].
      split; [discriminate|congruence].
    + right. exists k1, ss, k2, (Status OK). split; [assumption|].
      rewrite <- ready_calls_eq. split; [list_eq|].
      split; reflexivity.
Qed.

End Success.

(** ** Runs against a known stretch of replies *)

Section Completes.

Context {codes : StatusCodes}.
Variable sensor : nat -> reply.

(** The replies from position [n] on are the statuses [l]. *)
Fixpoint follows (n : nat) (l : list Z) : Prop :=
  match l with
  | [] => True
  | s :: l' => sensor n = Status s /\ follows (S n) l'
  end.

Lemma follows_app (n : nat) (l1 l2 : list Z) :
  follows n (l1 ++ l2) <-> follows n l1 /\ follows (n + length l1) l2.
Proof.
  revert n. induction l1 as [|s l1 IH]; intros n; cbn.
  - rewrite Nat.add_0_r. tauto.
  - rewrite IH. replace (n + S (length l1))%nat with (S n + length l1)%nat
      by lia. tauto.
Qed.

Lemma capture_completes (k fuel n : nat) :
  (k < fuel)%nat -> follows n (repeat NOFINGER k ++ [OK]) ->
  capture sensor fuel n = Run (Done None) (S (n + k)) (captured k).
Proof.
  pose proof codes_apart as (Hnf & _).
  revert fuel n. induction k as [|k IH]; intros fuel n Hk H;
    (destruct fuel as [|fuel]; [lia|]); rewrite capture_unfold;
    cbn in H; destruct H as (E & H); rewrite E.
  - rewrite Z.eqb_refl, Nat.add_0_r. reflexivity.
  - destruct (Z.eqb_spec NOFINGER OK) as [E'|_]; [now symmetry in E'|].
    rewrite Z.eqb_refl, (IH fuel (S n)); [|lia|exact H].
    unfold before, captured; cbn. f_equal. lia.
Qed.

Lemma wait_removed_completes (ss : list Z) (fuel : nat) (i : Z) (n : nat) :
  i <> NOFINGER -> (length ss < fuel)%nat ->
  Forall (fun s => s <> NOFINGER) ss ->
  follows n (ss ++ [NOFINGER]) ->
  wait_removed sensor fuel i n =
    Run (Done NOFINGER) (S (n + length ss))
      (map (Call GetImage) ss ++ [Call GetImage NOFINGER]).
Proof.
  revert fuel i n. induction ss as [|s ss IH]; intros fuel i n Hi Hl Hss H;
    (destruct fuel as [|fuel]; [cbn in Hl; lia|]);
    rewrite wait_removed_unfold;
    (destruct (Z.eqb_spec i NOFINGER) as [|_]; [contradiction|]);
    cbn in H; destruct H as (E & H); rewrite E.
  - rewrite wait_removed_unfold, Z.eqb_refl, Nat.add_0_r. reflexivity.
  - inversion Hss as [|? ? Hs Hss']; subst.
    rewrite (IH fuel s (S n)); [|assumption|cbn in Hl; lia|assumption..].
    unfold before; cbn. f_equal. lia.
Qed.

Lemma follows_at (a b : nat) (l : list Z) :
  follows a l -> a = b -> follows b l.
Proof. now intros H <-. Qed.

Lemma follows_head (n : nat) (s : Z) (l : list Z) :
  follows n (s :: l) -> sensor n = Status s.
Proof. now intros (E & _). Qed.

Lemma enroll_pass1_completes (fuel n k : nat) (ss : list Z) :
  (k < fuel)%nat -> (length ss < fuel)%nat ->
  Forall (fun s => s <> NOFINGER) ss ->
  follows n ((repeat NOFINGER k ++ [OK]) ++ [OK] ++ (ss ++ [NOFINGER])) ->
  enroll_pass sensor fuel 1 n =
    Run (Done None) (n + (k + 3 + length ss)) (pass1 k ss).
Proof.
  pose proof codes_apart as (Hnf & _).
  intros Hk Hl Hss H.
  apply (follows_app n (repeat NOFINGER k ++ [OK])) in H.
  destruct H as (Hc & H).
  rewrite length_app, repeat_length in H. cbn [length] in H.
  apply (follows_app _ [OK]) in H. destruct H as (Ht & Hw).
  apply follows_head in Ht. cbn [length] in Hw.
  apply (follows_at _ (S (S (n + k)))) in Hw; [|lia].
  replace (n + (k + 1))%nat with (S (n + k)) in Ht by lia.
  rewrite enroll_pass_capture, bind_run, (capture_completes k fuel n Hk Hc).
  cbn [res pos tr before].
  rewrite bind_print, (bind_call_status sensor _ _ _ OK Ht), Z.eqb_refl.
  rewrite bind_print. change (1 =? 1) with true. cbv iota.
  rewrite bind_print, bind_emit, bind_run.
  rewrite (wait_removed_completes ss fuel OK _ Hnf Hl Hss Hw).
  unfold before, ret, pass1, templated, lifted, prompt; cbn.
  f_equal; first [lia|list_eq|f_equal; list_eq].
Qed.

Lemma enroll_pass2_completes (fuel n k : nat) :
  (k < fuel)%nat ->
  follows n ((repeat NOFINGER k ++ [OK]) ++ [OK]) ->
  enroll_pass sensor fuel 2 n = Run (Done None) (n + (k + 2)) (pass2 k).
Proof.
  intros Hk H.
  apply (follows_app n (repeat NOFINGER k ++ [OK])) in H.
  destruct H as (Hc & Ht).
  rewrite length_app, repeat_length in Ht. cbn [length] in Ht.
  apply follows_head in Ht.
  replace (n + (k + 1))%nat with (S (n + k)) in Ht by lia.
  rewrite enroll_pass_capture, bind_run, (capture_completes k fuel n Hk Hc).
  cbn [res pos tr before].
  rewrite bind_print, (bind_call_status sensor _ _ _ OK Ht), Z.eqb_refl.
  rewrite bind_print. change (2 =? 1) with false. cbv iota.
  unfold before, ret, pass2, templated, prompt; cbn.
  f_equal; first [lia|list_eq|f_equal; list_eq].
Qed.

Lemma enroll_store_completes (location : Z) (n : nat) :
  follows n [OK; OK] ->
  res (enroll_store sensor location n) = Done true.
Proof.
  intros (Hm & Hs & _). unfold enroll_store.
  rewrite bind_print, (bind_call_status sensor _ _ _ OK Hm), Z.eqb_refl.
  rewrite !bind_print, (bind_call_status sensor _ _ _ OK Hs), Z.eqb_refl.
  rewrite bind_print. reflexivity.
Qed.

(** The replies that let every step of an enrollment succeed: [k1]
    empty polls and an image, extraction, the finger resting for [ss]
    and lifted, [k2] empty polls and an image, extraction, model and
    store. *)
Definition success_replies (k1 : nat) (ss : list Z) (k2 : nat) : list Z :=
  ((repeat NOFINGER k1 ++ [OK]) ++ [OK] ++ (ss ++ [NOFINGER]))
    ++ ((repeat NOFINGER k2 ++ [OK]) ++ [OK]) ++ [OK; OK].

Lemma enroll_finger_completes (fuel : nat) (location : Z) (n : nat)
    (k1 : nat) (ss : list Z) (k2 : nat) :
  (k1 < fuel)%nat -> (length ss < fuel)%nat -> (k2 < fuel)%nat ->
  Forall (fun s => s <> NOFINGER) ss ->
  follows n (success_replies k1 ss k2) ->
  res (enroll_finger sensor fuel location n) = Done true.
Proof.
  intros Hk1 Hl Hk2 Hss H. unfold success_replies in H.
  apply follows_app in H. destruct H as (H1 & H).
  apply follows_app in H. destruct H as (H2 & H3).
  rewrite enroll_finger_passes. cbv zeta.
  rewrite (enroll_pass1_completes fuel n k1 ss Hk1 Hl Hss H1).
  cbn [res pos tr].
  assert (E : (n + length ((repeat NOFINGER k1 ++ [OK]) ++ [OK]
                            ++ ss ++ [NOFINGER]))%nat
              = (n + (k1 + 3 + length ss))%nat).
  { rewrite !length_app, repeat_length. cbn [length]. lia. }
  rewrite E in H2, H3.
  rewrite (enroll_pass2_completes fuel _ k2 Hk2 H2).
  cbn [res pos tr before].
  apply enroll_store_completes.
  eapply follows_at; [exact H3|].
  rewrite !length_app, repeat_length. cbn [length]. lia.
Qed.

End Completes.

(** C9: enrollment returns [True] exactly when every step succeeded in
    order, that is, when its round trips are: capture until Ok,
    extraction into slot 1 Ok, polls until the finger is lifted, capture
    until Ok, extraction into slot 2 Ok, BuildModel Ok and StoreModel Ok;
    a StoreModel round trip is only ever the last one of a run, made
    for the slot asked for, after those steps all gave Ok; and against
    replies that let every step succeed, a budget larger than each
    stretch of polling is enough for enrollment to return [True]. *)
Theorem C9_true_iff_all_steps_ok {codes : StatusCodes}
    (sensor : nat -> reply) (fuel : nat) (location : Z) (n : nat) :
  (res (enroll_finger sensor fuel location n) = Done true <->
   exists cs,
     ready cs /\
     calls_of (tr (enroll_finger sensor fuel location n)) =
       cs ++ [(StoreModel location, Status OK)]) /\
  (forall pre l x post,
     calls_of (tr (enroll_finger sensor fuel location n)) =
       pre ++ (StoreModel l, x) :: post ->
     l = location /\ post = [] /\ ready pre) /\
  (forall k1 ss k2,
     (k1 < fuel)%nat -> (length ss < fuel)%nat -> (k2 < fuel)%nat ->
     Forall (fun s => s <> NOFINGER) ss ->
     follows sensor n (success_replies k1 ss k2) ->
     res (enroll_finger sensor fuel location n) = Done true).
Proof.
  assert (HC : forall k1 ss k2,
     (k1 < fuel)%nat -> (length ss < fuel)%nat -> (k2 < fuel)%nat ->
     Forall (fun s => s <> NOFINGER) ss ->
     follows sensor n (success_replies k1 ss k2) ->
     res (enroll_finger sensor fuel location n) = Done true).
  { intros k1 ss k2. apply enroll_finger_completes. }
  pose proof (enroll_finger_spec sensor fuel location n) as H.
  destruct (enroll_finger sensor fuel location n) as [r p t].
  cbn [res pos tr] in *. apply enroll_calls in H.
  assert (Hin : forall pre l x post,
            Forall no_store (calls_of t) ->
            calls_of t = pre ++ (StoreModel l, x) :: post -> False).
  { intros pre l x post Hall E. rewrite E, Forall_forall in Hall.
    specialize (Hall (StoreModel l, x) (in_elt _ _ _)). discriminate. }
  assert (Hsplit : forall k1 ss k2 y pre l x post,
            ready_calls k1 ss k2 ++ [(StoreModel location, y)] =
              pre ++ (StoreModel l, x) :: post ->
            pre = ready_calls k1 ss k2 /\ (StoreModel l, x)
              = (StoreModel location, y) /\ post = []).
  { intros k1 ss k2 y pre l x post E.
    apply (split_once no_store) in E;
      [exact E|apply ready_no_store|constructor|discriminate..]. }
  split; [split|split; [|exact HC]].
  - intros ->. destruct H as [[Hr _]|(k1 & ss & k2 & x & Hss & E & Hx)];
      [congruence|].
    exists (ready_calls k1 ss k2). split; [now exists k1, ss, k2|].
    rewrite E. f_equal. f_equal. f_equal. now apply Hx.
  - intros (cs & _ & E).
    destruct H as [[_ Hall]|(k1 & ss & k2 & x & Hss & E' & Hx)].
    + exfalso. apply (Hin cs location (Status OK) [] Hall E).
    + rewrite E' in E. apply Hsplit in E. destruct E as (_ & E & _).
      apply Hx. congruence.
  - intros pre l x post E.
    destruct H as [[_ Hall]|(k1 & ss & k2 & y & Hss & E' & Hx)].
    + exfalso. apply (Hin pre l x post Hall E).
    + rewrite E' in E. apply Hsplit in E. destruct E as (-> & E & ->).
      split; [congruence|]. split; [reflexivity|]. now exists k1, ss, k2.
Qed.

(** The replies of a sensor that lets every step succeed. *)
Definition smooth : nat -> reply :=
  replay [Status NOFINGER; Status OK; Status OK; Status OK; Status NOFINGER;
          Status NOFINGER; Status OK; Status OK; Status OK; Status OK]
    (Status OK).

Lemma C9_true_iff_all_steps_ok_witness :
  res (enroll_finger smooth 2 7 0%nat) = Done true.
Proof.
  destruct (C9_true_iff_all_steps_ok smooth 2 7 0%nat) as (_ & _ & H).
  apply (H 1%nat [OK] 1%nat).
  - lia.
  - cbn. lia.
  - lia.
  - repeat constructor. discriminate.
  - vm_compute. tauto.
Defined.

Example smooth_is_stored :
  res (enroll_finger smooth 2 7 0%nat) = Done true /\
  calls_of (tr (enroll_finger smooth 2 7 0%nat)) =
    ready_calls 1 [OK] 1 ++ [(StoreModel 7, Status OK)].
Proof. split; reflexivity. Qed.

(** * Further properties of the example *)

(** ** Identification: the round trips of every run *)

Section IdentifyShape.

Context {codes : StatusCodes}.
Variable sensor : nat -> reply.

Lemma calls_of_imaged (ss : list Z) (u : list event) :
  calls_of (imaged ss ++ u) = map poll ss ++ poll OK :: calls_of u.
Proof.
  unfold imaged. cbn [calls_of app].
  rewrite <- app_assoc, !calls_of_app, calls_of_polls. reflexivity.
Qed.

(** Round trips other than the search. *)
Definition no_search (c : cmd * reply) : Prop := fst c <> FingerSearch.

Lemma polls_no_search (ss : list Z) : Forall no_search (map poll ss).
Proof. induction ss; cbn; constructor; auto. discriminate. Qed.

(** The round trips of identification, by the way it ended. *)
Lemma identify_calls (fuel : nat) (r : result bool) (t : list event) :
  identify_case fuel r t ->
  (r <> Done true /\ Forall no_search (calls_of t)) \/
  (exists ss x,
     Forall (fun s => s <> OK) ss /\
     calls_of t =
       (map poll ss ++ [poll OK; (Image2Tz 1, Status OK)])
         ++ [(FingerSearch, x)] /\
     (r = Done true <-> x = Status OK)).
Proof.
  intros H. destruct H as [ss Hf|ss Hf Hl|ss Hf|ss s Hf Hs|ss Hf|ss s Hf Hs|ss Hf].
  - left. split; [discriminate|]. cbn [calls_of].
    rewrite calls_of_app, calls_of_polls.
    apply Forall_app. split; [apply polls_no_search|].
    repeat constructor. discriminate.
  - left. split; [discriminate|]. cbn [calls_of].
    rewrite calls_of_polls. apply polls_no_search.
  - left. split; [discriminate|]. rewrite calls_of_imaged.
    apply Forall_app. split; [apply polls_no_search|].
    repeat constructor; discriminate.
  - left. split; [discriminate|]. rewrite calls_of_imaged.
    apply Forall_app. split; [apply polls_no_search|].
    repeat constructor; discriminate.
  - right. exists ss, Raise. split; [assumption|].
    rewrite calls_of_imaged. split; [list_eq|]. split; discriminate.
  - right. exists ss, (Status s). split; [assumption|].
    rewrite calls_of_imaged. split; [list_eq|].
    split; [discriminate|congruence].
  - right. exists ss, (Status OK). split; [assumption|].
    rewrite calls_of_imaged. split; [list_eq|]. split; reflexivity.
Qed.

Lemma wait_image_completes (ss : list Z) (fuel n : nat) :
  (length ss < fuel)%nat -> Forall (fun s => s <> OK) ss ->
  follows sensor n (ss ++ [OK]) ->
  wait_image sensor fuel n =
    Run (Done tt) (S (n + length ss))
      (map (Call GetImage) ss ++ [Call GetImage OK]).
Proof.
  revert fuel n. induction ss as [|s ss IH]; intros fuel n Hl Hss H;
    (destruct fuel as [|fuel]; [cbn in Hl; lia|]);
    rewrite wait_image_unfold; cbn in H; destruct H as (E & H); rewrite E.
  - rewrite Z.eqb_refl, Nat.add_0_r. reflexivity.
  - inversion Hss as [|? ? Hs Hss']; subst.
    destruct (Z.eqb_spec s OK) as [|_]; [contradiction|].
    rewrite (IH fuel (S n)); [|cbn in Hl; lia|assumption..].
    unfold before; cbn. f_equal. lia.
Qed.

End IdentifyShape.

(** X1: identification returns [True] exactly when its round trips are
    CaptureImage polls that were not Ok, one that was, feature extraction
    into slot 1 answered Ok and a search answered Ok.  A search is only
    ever the last round trip of a run, made after the image was taken and
    extracted with Ok; and identification uses no primitive besides
    [get_image], [image_2_tz(1)] and [finger_search]. *)
Theorem X1_identify_true_iff_search_ok {codes : StatusCodes}
    (sensor : nat -> reply) (fuel n : nat) :
  (res (get_fingerprint sensor fuel n) = Done true <->
   exists ss,
     Forall (fun s => s <> OK) ss /\
     calls_of (tr (get_fingerprint sensor fuel n)) =
       map poll ss ++ [poll OK; (Image2Tz 1, Status OK);
                       (FingerSearch, Status OK)]) /\
  (forall pre x post,
     calls_of (tr (get_fingerprint sensor fuel n)) =
       pre ++ (FingerSearch, x) :: post ->
     post = [] /\
     exists ss,
       Forall (fun s => s <> OK) ss /\
       pre = map poll ss ++ [poll OK; (Image2Tz 1, Status OK)]) /\
  Forall (fun c => fst c = GetImage \/ fst c = Image2Tz 1
                   \/ fst c = FingerSearch)
    (calls_of (tr (get_fingerprint sensor fuel n))).
Proof.
  pose proof (get_fingerprint_spec sensor fuel n) as H.
  destruct (get_fingerprint sensor fuel n) as [r p t]. cbn [res pos tr] in *.
  assert (Hin : forall pre x post,
            Forall no_search (calls_of t) ->
            calls_of t = pre ++ (FingerSearch, x) :: post -> False).
  { intros pre x post Hall E. rewrite E, Forall_forall in Hall.
    now apply (Hall (FingerSearch, x) (in_elt _ _ _)). }
  assert (Hsplit : forall ss y pre x post,
            (map poll ss ++ [poll OK; (Image2Tz 1, Status OK)])
              ++ [(FingerSearch, y)] = pre ++ (FingerSearch, x) :: post ->
            pre = map poll ss ++ [poll OK; (Image2Tz 1, Status OK)] /\
            (FingerSearch, x) = (FingerSearch, y) /\ post = []).
  { intros ss y pre x post E.
    apply (split_once no_search) in E; [exact E| |constructor| |].
    - apply Forall_app. split; [apply polls_no_search|].
      repeat constructor; discriminate.
    - intros F. now apply F.
    - intros F. now apply F. }
  split; [split|split].
  - intros ->. apply identify_calls in H.
    destruct H as [[Hr _]|(ss & x & Hss & E & Hx)]; [congruence|].
    exists ss. split; [assumption|]. rewrite E.
    replace x with (Status OK) by (symmetry; now apply Hx). list_eq.
  - intros (ss' & _ & E). apply identify_calls in H.
    destruct H as [[_ Hall]|(ss & x & Hss & E' & Hx)].
    + exfalso.
      apply (Hin (map poll ss' ++ [poll OK; (Image2Tz 1, Status OK)])
               (Status OK) [] Hall).
      rewrite E. list_eq.
    + rewrite E' in E.
      replace (map poll ss' ++ [poll OK; (Image2Tz 1, Status OK);
                                (FingerSearch, Status OK)])
        with ((map poll ss' ++ [poll OK; (Image2Tz 1, Status OK)])
                ++ (FingerSearch, Status OK) :: []) in E by list_eq.
      apply Hsplit in E. destruct E as (_ & E & _). apply Hx. congruence.
  - intros pre x post E. apply identify_calls in H.
    destruct H as [[_ Hall]|(ss & y & Hss & E' & Hx)].
    + exfalso. apply (Hin pre x post Hall E).
    + rewrite E' in E. apply Hsplit in E. destruct E as (-> & _ & ->).
      split; [reflexivity|]. now exists ss.
  - assert (Hp : forall ss, Forall
              (fun c : cmd * reply => fst c = GetImage \/ fst c = Image2Tz 1
                                      \/ fst c = FingerSearch) (map poll ss)).
    { intros ss. induction ss; cbn; constructor; auto. }
    destruct H; cbn [calls_of];
      rewrite ?calls_of_imaged, ?calls_of_app, ?calls_of_polls;
      cbn [calls_of];
      repeat first [ apply Forall_app; split | apply Hp
                   | apply Forall_cons | apply Forall_nil ];
      cbn; auto.
Qed.

(** X2: against a sensor that, after polls that are not Ok, gives an
    image, a polling budget larger than the number of those polls is
    enough for identification to return: [False] when the extraction is
    not Ok, and otherwise whether the search was Ok. *)
Theorem X2_identify_returns {codes : StatusCodes}
    (sensor : nat -> reply) (fuel n : nat) (ss : list Z) (a b : Z) :
  (length ss < fuel)%nat -> Forall (fun s => s <> OK) ss ->
  follows sensor n (ss ++ [OK]) ->
  sensor (S (n + length ss)) = Status a ->
  (a = OK -> sensor (S (S (n + length ss))) = Status b) ->
  res (get_fingerprint sensor fuel n) = Done ((a =? OK) && (b =? OK)).
Proof.
  intros Hl Hss H Ea Eb. unfold get_fingerprint.
  rewrite bind_print, (bind_run (wait_image sensor fuel)),
    (wait_image_completes sensor ss fuel n Hl Hss H).
  cbn [res pos tr before].
  rewrite bind_print, (bind_call_status sensor _ _ _ a Ea).
  destruct (Z.eqb_spec a OK) as [Ha|Ha]; cbn [negb andb]; [|reflexivity].
  rewrite bind_print, (bind_call_status sensor _ _ _ b (Eb Ha)).
  destruct (b =? OK); reflexivity.
Qed.

Lemma X2_identify_returns_witness :
  res (get_fingerprint
         (replay [Status NOFINGER; Status IMAGEFAIL; Status OK; Status OK;
                  Status 9] (Status OK)) 3 0%nat) =
    Done ((OK =? OK) && (9 =? OK)).
Proof.
  apply (X2_identify_returns
           (replay [Status NOFINGER; Status IMAGEFAIL; Status OK; Status OK;
                    Status 9] (Status OK)) 3 0%nat [NOFINGER; IMAGEFAIL] OK 9).
  - cbn. lia.
  - repeat constructor; discriminate.
  - vm_compute. tauto.
  - reflexivity.
  - reflexivity.
Defined.

(** ** Enrollment: the order of its steps *)

Section EnrollmentPlan.

Context {codes : StatusCodes}.

(** The round trips of a trace other than CaptureImage polls. *)
Definition is_poll (c : cmd * reply) : bool :=
  match fst c with GetImage => true | _ => false end.

Definition steps_of (t : list event) : list (cmd * reply) :=
  filter (fun c => negb (is_poll c)) (calls_of t).

(** The steps an enrollment into [location] makes, in order. *)
Definition plan (location : Z) : list cmd :=
  [Image2Tz 1; Image2Tz 2; CreateModel; StoreModel location].

(** A step that answered Ok. *)
Definition ok (c : cmd) : cmd * reply := (c, Status OK).

Lemma steps_of_app (t u : list event) :
  steps_of (t ++ u) = steps_of t ++ steps_of u.
Proof. unfold steps_of. now rewrite calls_of_app, filter_app. Qed.

Lemma steps_of_dots (k : nat) : steps_of (dots k) = [].
Proof.
  unfold steps_of. rewrite calls_of_dots.
  induction k as [|k IH]; [reflexivity|exact IH].
Qed.

Lemma steps_of_polls (ss : list Z) : steps_of (map (Call GetImage) ss) = [].
Proof.
  unfold steps_of. rewrite calls_of_polls.
  induction ss as [|s ss IH]; [reflexivity|exact IH].
Qed.

Lemma steps_of_captured (k : nat) : steps_of (captured k) = [].
Proof. unfold captured. now rewrite steps_of_app, steps_of_dots. Qed.

Lemma steps_of_print (m : msg) (t : list event) :
  steps_of (Print m :: t) = steps_of t.
Proof. reflexivity. Qed.

Lemma steps_of_pass1 (k : nat) (ss : list Z) :
  steps_of (pass1 k ss) = [ok (Image2Tz 1)].
Proof.
  unfold pass1, templated, lifted.
  rewrite steps_of_print, !steps_of_app, steps_of_captured, steps_of_polls.
  reflexivity.
Qed.

Lemma steps_of_pass2 (k : nat) : steps_of (pass2 k) = [ok (Image2Tz 2)].
Proof.
  unfold pass2, templated.
  rewrite steps_of_print, !steps_of_app, steps_of_captured. reflexivity.
Qed.

(** The steps of a pass that ended the enrollment: none, or an
    extraction that did not answer Ok, or (in the first pass) the
    extraction alone. *)
Lemma pass_stop_steps (fuel : nat) (f : Z) (r : result bool)
    (t : list event) :
  pass_stop fuel f r t ->
  steps_of t = [] \/
  (exists x, x <> Status OK /\ steps_of t = [(Image2Tz f, x)]) \/
  (f = 1 /\ steps_of t = [ok (Image2Tz 1)]).
Proof.
  intros H; destruct H as [k s|k| |k s Hk Hs|k|k ss ->|k ss ->];
    rewrite steps_of_print, ?steps_of_app, ?steps_of_captured,
      ?steps_of_dots, ?steps_of_polls.
  - now left.
  - now left.
  - now left.
  - right; left. exists (Status s). split; [congruence|reflexivity].
  - right; left. exists Raise. split; [discriminate|reflexivity].
  - right; right. split; reflexivity.
  - right; right. split; reflexivity.
Qed.

End EnrollmentPlan.

(** X3: whatever the sensor answers, the round trips of an enrollment
    other than CaptureImage polls follow one plan: extraction into slot
    1, extraction into slot 2, BuildModel, StoreModel for the slot asked
    for.  A run makes a first part of that plan, each step at most once
    and in that order; every step answered Ok, except possibly the last
    one made. *)
Theorem X3_enrollment_follows_plan {codes : StatusCodes}
    (sensor : nat -> reply) (fuel : nat) (location : Z) (n : nat) :
  exists made rest,
    plan location = made ++ rest /\
    (steps_of (tr (enroll_finger sensor fuel location n)) = map ok made \/
     exists c x rest',
       rest = c :: rest' /\ x <> Status OK /\
       steps_of (tr (enroll_finger sensor fuel location n)) =
         map ok made ++ [(c, x)]).
Proof.
  pose proof (enroll_finger_spec sensor fuel location n) as H.
  destruct (enroll_finger sensor fuel location n) as [r p t].
  cbn [res pos tr] in *.
  destruct H as [r t Hs|k ss r t Hss Hs|k1 ss k2 r t Hss Hs].
  - destruct (pass_stop_steps _ _ _ _ Hs) as [E|[(x & Hx & E)|(_ & E)]];
      rewrite E.
    + exists [], (plan location). split; [reflexivity|now left].
    + exists [], (plan location). split; [reflexivity|right].
      now exists (Image2Tz 1), x, [Image2Tz 2; CreateModel; StoreModel location].
    + exists [Image2Tz 1], [Image2Tz 2; CreateModel; StoreModel location].
      split; [reflexivity|now left].
  - rewrite steps_of_app, steps_of_pass1.
    destruct (pass_stop_steps _ _ _ _ Hs) as [E|[(x & Hx & E)|(F & _)]];
      [rewrite E|rewrite E|discriminate].
    + exists [Image2Tz 1], [Image2Tz 2; CreateModel; StoreModel location].
      split; [reflexivity|now left].
    + exists [Image2Tz 1], [Image2Tz 2; CreateModel; StoreModel location].
      split; [reflexivity|right].
      now exists (Image2Tz 2), x, [CreateModel; StoreModel location].
  - rewrite !steps_of_app, steps_of_pass1, steps_of_pass2.
    destruct Hs as [|s Hs| |s Hs|].
    + exists [Image2Tz 1; Image2Tz 2], [CreateModel; StoreModel location].
      split; [reflexivity|right].
      exists CreateModel, Raise, [StoreModel location].
      repeat split. discriminate.
    + exists [Image2Tz 1; Image2Tz 2], [CreateModel; StoreModel location].
      split; [reflexivity|right].
      exists CreateModel, (Status s), [StoreModel location].
      repeat split. congruence.
    + exists [Image2Tz 1; Image2Tz 2; CreateModel], [StoreModel location].
      split; [reflexivity|right].
      exists (StoreModel location), Raise, []. repeat split. discriminate.
    + exists [Image2Tz 1; Image2Tz 2; CreateModel], [StoreModel location].
      split; [reflexivity|right].
      exists (StoreModel location), (Status s), []. repeat split. congruence.
    + exists (plan location), []. split; [reflexivity|now left].
Qed.

(** ** The polling budget *)

Section Budget.

Context {codes : StatusCodes}.
Variable sensor : nat -> reply.

Lemma wait_image_more (fuel d n : nat) :
  res (wait_image sensor fuel n) <> Starved ->
  wait_image sensor (fuel + d) n = wait_image sensor fuel n.
Proof.
  revert n. induction fuel as [|fuel IH]; intros n H.
  - now contradiction H.
  - cbn [Nat.add]. rewrite !wait_image_unfold in *.
    destruct (sensor n) as [s|]; [|reflexivity].
    destruct (s =? OK); [reflexivity|].
    cbn [before res] in H. now rewrite IH.
Qed.

Lemma capture_more (fuel d n : nat) :
  res (capture sensor fuel n) <> Starved ->
  capture sensor (fuel + d) n = capture sensor fuel n.
Proof.
  revert n. induction fuel as [|fuel IH]; intros n H.
  - now contradiction H.
  - cbn [Nat.add]. rewrite !capture_unfold in *.
    destruct (sensor n) as [s|]; [|reflexivity].
    destruct (s =? OK); [reflexivity|].
    destruct (s =? NOFINGER); [|reflexivity].
    cbn [before res] in H. now rewrite IH.
Qed.

Lemma wait_removed_more (fuel d : nat) (i : Z) (n : nat) :
  res (wait_removed sensor fuel i n) <> Starved ->
  wait_removed sensor (fuel + d) i n = wait_removed sensor fuel i n.
Proof.
  revert i n. induction fuel as [|fuel IH]; intros i n H.
  - rewrite !wait_removed_unfold in *.
    destruct (i =? NOFINGER); [reflexivity|]. now contradiction H.
  - cbn [Nat.add]. rewrite !wait_removed_unfold in *.
    destruct (i =? NOFINGER); [reflexivity|].
    destruct (sensor n) as [s|]; [|reflexivity].
    cbn [before res] in H. now rewrite IH.
Qed.

(** A sequence is not starved only if its first part is not. *)
Lemma bind_not_starved {A B : Type} (m : M A) (f : A -> M B) (n : nat) :
  res (bind m f n) <> Starved -> res (m n) <> Starved.
Proof. unfold bind. intros H E. rewrite E in H. now apply H. Qed.

Lemma get_fingerprint_more (fuel d n : nat) :
  res (get_fingerprint sensor fuel n) <> Starved ->
  get_fingerprint sensor (fuel + d) n = get_fingerprint sensor fuel n.
Proof.
  unfold get_fingerprint. rewrite !bind_print. cbn [before res].
  intros H. apply bind_not_starved in H.
  rewrite !(bind_run (wait_image sensor _)), (wait_image_more _ _ _ H).
  reflexivity.
Qed.

Lemma enroll_pass_more (fuel d : nat) (f : Z) (n : nat) :
  res (enroll_pass sensor fuel f n) <> Starved ->
  enroll_pass sensor (fuel + d) f n = enroll_pass sensor fuel f n.
Proof.
  rewrite !enroll_pass_capture. cbn [before res]. intros H.
  pose proof (bind_not_starved _ _ _ H) as Hc.
  rewrite !(bind_run (capture sensor _)) in *.
  rewrite (capture_more _ d _ Hc).
  destruct (capture sensor fuel n) as [[[b|]| |] p t]; cbn [res pos tr] in *;
    try reflexivity.
  f_equal. f_equal.
  rewrite !bind_print in *. cbn [before res] in H. f_equal.
  destruct (sensor p) as [s|] eqn:E.
  - rewrite !(bind_call_status sensor _ _ _ s E) in *.
    cbn [before res] in H. f_equal.
    destruct (s =? OK); [|reflexivity].
    rewrite !bind_print in *. cbn [before res] in H. f_equal.
    destruct (f =? 1); [|reflexivity].
    rewrite !bind_print, !bind_emit in *. cbn [before res] in H.
    f_equal. f_equal.
    apply bind_not_starved in H.
    rewrite !(bind_run (wait_removed sensor _ s)),
      (wait_removed_more _ d _ _ H).
    reflexivity.
  - now rewrite !(bind_call_raise sensor _ _ _ E).
Qed.

Lemma enroll_finger_more (fuel d : nat) (location : Z) (n : nat) :
  res (enroll_finger sensor fuel location n) <> Starved ->
  enroll_finger sensor (fuel + d) location n =
    enroll_finger sensor fuel location n.
Proof.
  rewrite !enroll_finger_passes. cbv zeta. intros H.
  assert (H1 : res (enroll_pass sensor fuel 1 n) <> Starved).
  { intros E. rewrite E in H. now apply H. }
  rewrite (enroll_pass_more _ d _ _ H1).
  destruct (enroll_pass sensor fuel 1 n) as [[[b|]| |] p1 t1];
    cbn [res pos tr] in *; try reflexivity.
  assert (H2 : res (enroll_pass sensor fuel 2 p1) <> Starved).
  { intros E. rewrite E in H. now apply H. }
  now rewrite (enroll_pass_more _ d _ _ H2).
Qed.

End Budget.

(** The polling budget is only a bound: the outcome of identification
    and of enrollment depends on the replies of the sensor alone.  A run that ends, by returning or by an
    exception, within some polling budget is the very same run under
    every larger budget: same result, same round trips, same output. *)
Lemma ended_runs_ignore_budget {codes : StatusCodes}
    (sensor : nat -> reply) (fuel more : nat) (location : Z) (n : nat) :
  (res (get_fingerprint sensor fuel n) <> Starved ->
   get_fingerprint sensor (fuel + more) n = get_fingerprint sensor fuel n) /\
  (res (enroll_finger sensor fuel location n) <> Starved ->
   enroll_finger sensor (fuel + more) location n =
     enroll_finger sensor fuel location n).
Proof.
  split; [apply get_fingerprint_more|apply enroll_finger_more].
Qed.

(** ** The menu branches *)

Section Branches.

Context {codes : StatusCodes}.
Variable sensor : nat -> reply.

(** The slot guard of the enroll and delete branches. *)
Lemma slot_guard (location : Z) :
  (location >? 0) && (location <? 128) = true <-> 1 <= location <= 127.
Proof.
  destruct (Z.gtb_spec location 0), (Z.ltb_spec location 128); cbn;
    split; intros; try discriminate; try lia; reflexivity.
Qed.

Lemma main_delete_served (location : Z) (n : nat) :
  1 <= location <= 127 ->
  main_delete sensor (Some location) n =
  match sensor n with
  | Status s =>
      Run (Done tt) (S n)
        [Input (Some location); Call (DeleteModel location) s;
         Print (if s =? OK then Deleted else FailedToDelete)]
  | Raise => Run Raised (S n) [Input (Some location); Fault (DeleteModel location)]
  end.
Proof.
  intros H. apply slot_guard in H.
  unfold main_delete. rewrite bind_run. cbn [input_int res pos tr before].
  rewrite H. destruct (sensor n) as [s|] eqn:E.
  - rewrite (bind_call_status sensor _ _ _ s E).
    destruct (s =? OK); reflexivity.
  - now rewrite (bind_call_raise sensor _ _ _ E).
Qed.

Lemma main_delete_skipped (typed : option Z) (n : nat) :
  (forall location, typed = Some location -> ~ 1 <= location <= 127) ->
  calls_of (tr (main_delete sensor typed n)) = [] /\
  prints_of (tr (main_delete sensor typed n)) = [].
Proof.
  intros H. destruct typed as [location|]; [|split; reflexivity].
  specialize (H location eq_refl).
  assert (E : (location >? 0) && (location <? 128) = false).
  { destruct ((location >? 0) && (location <? 128)) eqn:E; [|reflexivity].
    apply slot_guard in E. contradiction. }
  unfold main_delete. rewrite bind_run. cbn [input_int res pos tr before].
  rewrite E. split; reflexivity.
Qed.

(** The enroll branch for a slot id that fails the guard. *)
Lemma out_of_range_skip (fuel : nat) (location : Z) (n : nat) :
  ~ 1 <= location <= 127 ->
  main_enroll sensor fuel (Some location) n =
    Run (Done tt) n [Led 1; Input (Some location); Led 0] /\
  main_delete sensor (Some location) n =
    Run (Done tt) n [Input (Some location)].
Proof.
  intros H.
  assert (E : (location >? 0) && (location <? 128) = false).
  { destruct ((location >? 0) && (location <? 128)) eqn:E; [|reflexivity].
    apply slot_guard in E. contradiction. }
  unfold main_enroll, main_delete, bind, input_int. cbn [res pos tr].
  rewrite E. split; reflexivity.
Qed.

(** The first event of an enrollment is the prompt of the first pass. *)
Lemma enroll_finger_starts (fuel : nat) (location : Z) (n : nat) :
  exists t, tr (enroll_finger sensor fuel location n) = Print PlaceFinger :: t.
Proof.
  pose proof (enroll_finger_spec sensor fuel location n) as H.
  destruct (enroll_finger sensor fuel location n) as [r p t].
  cbn [res pos tr] in *.
  destruct H as [r t Hs|k ss r t Hss Hs|k1 ss k2 r t Hss Hs].
  - destruct (pass_stop_body _ _ _ _ Hs) as (u & -> & _). now exists u.
  - unfold pass1. cbn [app]. eauto.
  - unfold pass1. cbn [app]. eauto.
Qed.

(** The enroll branch for a slot id that passes the guard. *)
Lemma main_enroll_served (fuel : nat) (location : Z) (n : nat) :
  1 <= location <= 127 ->
  main_enroll sensor fuel (Some location) n =
  let e := enroll_finger sensor fuel location n in
  match res e with
  | Done _ =>
      Run (Done tt) (pos e)
        ([Led 1; Input (Some location)] ++ tr e ++ [Led 0])
  | Raised => Run Raised (pos e) ([Led 1; Input (Some location)] ++ tr e)
  | Starved => Run Starved (pos e) ([Led 1; Input (Some location)] ++ tr e)
  end.
Proof.
  intros H. apply slot_guard in H.
  unfold main_enroll. rewrite bind_emit, bind_run.
  cbn [input_int res pos tr before]. rewrite H.
  rewrite (bind_run (bind (enroll_finger sensor fuel location) _)),
    (bind_run (enroll_finger sensor fuel location)).
  cbv zeta.
  destruct (enroll_finger sensor fuel location n) as [[b| |] p t];
    cbn [res pos tr before ret emit]; try reflexivity.
  f_equal. cbn. now rewrite app_nil_r.
Qed.

End Branches.

(** X4: the delete branch makes one round trip, [delete_model] for the
    slot typed, exactly when what was typed is a number in [1, 127]; it
    prints "Deleted!" exactly when that round trip answers Ok and "Failed
    to delete" exactly when it answers any other status; and it never
    writes to the LED line. *)
Theorem X4_delete_branch {codes : StatusCodes}
    (sensor : nat -> reply) (typed : option Z) (n : nat) :
  (forall location,
     typed = Some location -> 1 <= location <= 127 ->
     calls_of (tr (main_delete sensor typed n)) =
       [(DeleteModel location, sensor n)]) /\
  ((forall location, typed = Some location -> ~ 1 <= location <= 127) ->
   calls_of (tr (main_delete sensor typed n)) = []) /\
  (In (Print Deleted) (tr (main_delete sensor typed n)) <->
   exists location,
     typed = Some location /\ 1 <= location <= 127 /\
     sensor n = Status OK) /\
  (In (Print FailedToDelete) (tr (main_delete sensor typed n)) <->
   exists location s,
     typed = Some location /\ 1 <= location <= 127 /\
     sensor n = Status s /\ s <> OK) /\
  leds_of (tr (main_delete sensor typed n)) = [].
Proof.
  assert (Hcase :
    (exists location, typed = Some location /\ 1 <= location <= 127) \/
    (forall location, typed = Some location -> ~ 1 <= location <= 127)).
  { destruct typed as [location|]; [|right; discriminate].
    destruct (Z_le_dec 1 location), (Z_le_dec location 127);
      try (right; intros ? [= <-]; lia).
    left. exists location. split; [reflexivity|lia]. }
  destruct Hcase as [(location & -> & Hr)|Hout].
  - rewrite (main_delete_served sensor location n Hr).
    assert (Hsome : forall l : Z, Some location = Some l -> l = location).
    { intros l E. congruence. }
    destruct (sensor n) as [s|] eqn:E;
      [destruct (Z.eqb_spec s OK) as [->|Hs]|];
      cbn [tr calls_of leds_of];
      (split; [|split; [|split; [|split]]]);
      try reflexivity;
      try (intros l El _; rewrite (Hsome l El); reflexivity);
      try (intros H; exfalso; apply (H location eq_refl Hr)).
    + split; [intros _; exists location; auto|intros _; cbn; auto].
    + split; [cbn; intuition discriminate|].
      intros (l & s & _ & _ & F & Hs). congruence.
    + split; [cbn; intuition discriminate|].
      intros (l & _ & _ & F). congruence.
    + split; [intros _; exists location, s; auto|intros _; cbn; auto].
    + split; [cbn; intuition discriminate|].
      intros (l & _ & _ & F). discriminate.
    + split; [cbn; intuition discriminate|].
      intros (l & s & _ & _ & F & _). discriminate.
  - destruct (main_delete_skipped sensor typed n Hout) as (Hc & Hp).
    assert (Hnp : forall m, ~ In (Print m) (tr (main_delete sensor typed n))).
    { intros m Hin.
      assert (Hm : In m (prints_of (tr (main_delete sensor typed n)))).
      { revert Hin. generalize (tr (main_delete sensor typed n)).
        intros t. induction t as [|e t IH]; [contradiction|].
        intros [->|Hin]; [now left|].
        destruct e; cbn; auto. }
      rewrite Hp in Hm. contradiction. }
    repeat split.
    + intros location E Hr. exfalso. apply (Hout location E Hr).
    + intros _. exact Hc.
    + intros Hin. exfalso. apply (Hnp _ Hin).
    + intros (location & E & Hr & _). exfalso. apply (Hout location E Hr).
    + intros Hin. exfalso. apply (Hnp _ Hin).
    + intros (location & s & E & Hr & _). exfalso. apply (Hout location E Hr).
    + destruct typed as [location|]; [|reflexivity].
      unfold main_delete. rewrite bind_run.
      cbn [input_int res pos tr before].
      destruct ((location >? 0) && (location <? 128)) eqn:G.
      * apply slot_guard in G. exfalso. apply (Hout location eq_refl G).
      * reflexivity.
Qed.

Lemma X4_delete_branch_witness :
  calls_of (tr (main_delete (replay [Status BADLOCATION] (Status OK))
                  (Some 127) 0%nat)) =
    [(DeleteModel 127, replay [Status BADLOCATION] (Status OK) 0%nat)] /\
  calls_of (tr (main_delete (replay [] (Status OK)) (Some 0) 0%nat)) = [].
Proof.
  split.
  - destruct (X4_delete_branch (replay [Status BADLOCATION] (Status OK))
                (Some 127) 0%nat) as (H & _).
    apply (H 127); [reflexivity|lia].
  - destruct (X4_delete_branch (replay [] (Status OK)) (Some 0) 0%nat)
      as (_ & H & _).
    apply H. intros l E. injection E as <-. lia.
Defined.

Section FindBranch.

Context {codes : StatusCodes}.
Variable sensor : nat -> reply.

(** The find branch in terms of the identification it runs. *)
Lemma main_find_run (fuel n : nat) :
  main_find sensor fuel n =
  let g := get_fingerprint sensor fuel n in
  match res g with
  | Done b =>
      Run (Done tt) (pos g)
        ([Led 1] ++ tr g
           ++ [Print (if b then Found else FingerNotFound); Led 0])
  | Raised => Run Raised (pos g) ([Led 1] ++ tr g)
  | Starved => Run Starved (pos g) ([Led 1] ++ tr g)
  end.
Proof.
  unfold main_find. rewrite bind_emit, (bind_run (get_fingerprint sensor fuel)).
  cbv zeta.
  destruct (get_fingerprint sensor fuel n) as [[b| |] p t];
    cbn [res pos tr before]; try reflexivity.
  destruct b; reflexivity.
Qed.

(** The events of identification. *)
Definition identify_event (e : event) : Prop :=
  match e with
  | Call GetImage _ | Fault GetImage => True
  | Call (Image2Tz _) _ | Fault (Image2Tz _) => True
  | Call FingerSearch _ | Fault FingerSearch => True
  | Print WaitingForImage | Print Templating | Print Searching => True
  | _ => False
  end.

Lemma identify_case_events (fuel : nat) (r : result bool) (t : list event) :
  identify_case fuel r t -> Forall identify_event t.
Proof.
  intros H; destruct H; unfold imaged;
    repeat first [ apply Forall_nil | apply Forall_cons
                 | apply Forall_app; split
                 | apply Forall_polls; intros ? | exact I ].
Qed.

Lemma get_fingerprint_events (fuel n : nat) :
  Forall identify_event (tr (get_fingerprint sensor fuel n)).
Proof. eapply identify_case_events, get_fingerprint_spec. Qed.

(** The search answered Ok exactly in the runs that return [True]. *)
Lemma search_ok_iff {fuel : nat} {r : result bool} {t : list event} :
  identify_case fuel r t ->
  (In (Call FingerSearch OK) t <-> r = Done true).
Proof.
  assert (Hi : forall ss u,
            In (Call FingerSearch OK) (imaged ss ++ u) ->
            In (Call FingerSearch OK) u).
  { intros ss u. unfold imaged. cbn [app In].
    rewrite <- app_assoc, !in_app_iff, in_map_iff. cbn [In].
    intros [F|[(s & F & _)|[[F|[F|[]]]|H]]]; try discriminate. exact H. }
  assert (Hw : forall ss u,
            (forall e, In e u -> e <> Call FingerSearch OK) ->
            ~ In (Call FingerSearch OK)
                (Print WaitingForImage :: map (Call GetImage) ss ++ u)).
  { intros ss u Hu. cbn [In]. rewrite in_app_iff, in_map_iff.
    intros [F|[(s & F & _)|H]]; try discriminate. now apply (Hu _ H). }
  intros H; destruct H as [ss Hf|ss Hf Hl|ss Hf|ss s Hf Hs|ss Hf|ss s Hf Hs|ss Hf];
    split; try discriminate; try reflexivity.
  - intros H. exfalso. revert H. apply Hw. intros e [<-|[]]. discriminate.
  - intros H. exfalso.
    apply (Hw ss []); [intros e []|now rewrite app_nil_r].
  - intros H%Hi. cbn in H. intuition discriminate.
  - intros H%Hi. cbn in H. intuition discriminate.
  - intros H%Hi. cbn in H. intuition discriminate.
  - intros H%Hi. cbn in H. destruct H as [F|[F|[F|[]]]]; try discriminate.
    congruence.
  - intros _. apply in_or_app. right. cbn. auto.
Qed.

End FindBranch.

(** X5: the find branch prints "Found" exactly when identification
    returned [True], which is exactly when the search answered Ok, and
    "Finger not found" exactly when identification returned [False]: the
    one message covers every cause of failure. *)
Theorem X5_find_reports_match {codes : StatusCodes}
    (sensor : nat -> reply) (fuel n : nat) :
  (In (Print Found) (tr (main_find sensor fuel n)) <->
   res (get_fingerprint sensor fuel n) = Done true) /\
  (In (Print Found) (tr (main_find sensor fuel n)) <->
   In (Call FingerSearch OK) (tr (main_find sensor fuel n))) /\
  (In (Print FingerNotFound) (tr (main_find sensor fuel n)) <->
   res (get_fingerprint sensor fuel n) = Done false).
Proof.
  pose proof (get_fingerprint_events sensor fuel n) as He.
  pose proof (search_ok_iff sensor (get_fingerprint_spec sensor fuel n)) as Hs.
  rewrite main_find_run. cbv zeta.
  destruct (get_fingerprint sensor fuel n) as [r p t]. cbn [res pos tr] in *.
  rewrite Forall_forall in He.
  assert (Hnf : ~ In (Print Found) t) by (intros F; apply (He _ F)).
  assert (Hnn : ~ In (Print FingerNotFound) t) by (intros F; apply (He _ F)).
  destruct r as [[|]| |]; cbn [tr app In]; rewrite ?in_app_iff; cbn [In];
    repeat split; intros; try discriminate; try tauto;
    try (intuition discriminate);
    try (exfalso; intuition (try discriminate; try congruence)).
Qed.

(** X6: the enroll branch starts an enrollment exactly when what was
    typed is a number in [1, 127].  It then enrolls into the slot typed,
    adds no round trip and no message of its own, and ends normally
    whether the enrollment returned [True] or [False]: the result is
    dropped. *)
Theorem X6_enroll_branch {codes : StatusCodes}
    (sensor : nat -> reply) (fuel : nat) (typed : option Z) (n : nat) :
  (In (Print PlaceFinger) (tr (main_enroll sensor fuel typed n)) <->
   exists location, typed = Some location /\ 1 <= location <= 127) /\
  (forall location,
     typed = Some location -> 1 <= location <= 127 ->
     calls_of (tr (main_enroll sensor fuel typed n)) =
       calls_of (tr (enroll_finger sensor fuel location n)) /\
     prints_of (tr (main_enroll sensor fuel typed n)) =
       prints_of (tr (enroll_finger sensor fuel location n)) /\
     (forall b,
        res (enroll_finger sensor fuel location n) = Done b ->
        res (main_enroll sensor fuel typed n) = Done tt)).
Proof.
  split.
  - split.
    + intros Hin. destruct typed as [location|].
      * destruct (Z_le_dec 1 location) as [H1|H1];
          [destruct (Z_le_dec location 127) as [H2|H2]|].
        -- exists location. split; [reflexivity|lia].
        -- exfalso.
           destruct (out_of_range_skip sensor fuel location n) as (E & _); [lia|].
           rewrite E in Hin. cbn in Hin. intuition discriminate.
        -- exfalso.
           destruct (out_of_range_skip sensor fuel location n) as (E & _); [lia|].
           rewrite E in Hin. cbn in Hin. intuition discriminate.
      * exfalso. cbn in Hin. intuition discriminate.
    + intros (location & -> & Hr).
      rewrite (main_enroll_served sensor fuel location n Hr). cbv zeta.
      destruct (enroll_finger_starts sensor fuel location n) as (u & E).
      destruct (res (enroll_finger sensor fuel location n));
        cbn [tr app In]; rewrite E; cbn; auto.
  - intros location -> Hr.
    rewrite (main_enroll_served sensor fuel location n Hr). cbv zeta.
    destruct (enroll_finger sensor fuel location n) as [[b| |] p t];
      cbn [res pos tr app calls_of prints_of];
      rewrite ?calls_of_app, ?prints_of_app; cbn [calls_of prints_of];
      rewrite ?app_nil_r; repeat split; intros; discriminate.
Qed.

Lemma X6_enroll_branch_witness :
  calls_of (tr (main_enroll mismatch 2 (Some 1) 0%nat)) =
    calls_of (tr (enroll_finger mismatch 2 1 0%nat)) /\
  prints_of (tr (main_enroll mismatch 2 (Some 1) 0%nat)) =
    prints_of (tr (enroll_finger mismatch 2 1 0%nat)) /\
  (forall b,
     res (enroll_finger mismatch 2 1 0%nat) = Done b ->
     res (main_enroll mismatch 2 (Some 1) 0%nat) = Done tt).
Proof.
  destruct (X6_enroll_branch mismatch 2 (Some 1) 0%nat) as (_ & H).
  apply (H 1); [reflexivity|lia].
Defined.

(** ** The program: start-up, menu loop and exit *)

From Stdlib Require Import String.

(** The [print] statements of [setup_gpio], [setup_uart], [main] and of
    the handler under [__main__]. *)
Inductive notice : Type :=
| GpioSetupError                (* f"GPIO Setup Error: {str(e)}" *)
| UartSetupError                (* f"UART Setup Error: {str(e)}" *)
| SensorNotFound                (* "Did not find fingerprint sensor :(" *)
| SensorFound                   (* "Fingerprint sensor found!" *)
| BlankLine                     (* "\n" *)
| Rule                          (* "----------------" *)
| TemplateList                  (* "Fingerprint templates:", finger.templates *)
| MenuEnroll                    (* "e) enroll print" *)
| MenuFind                      (* "f) find print" *)
| MenuDelete                    (* "d) delete print" *)
| MenuQuit                      (* "q) quit" *)
| Exiting                       (* "Exiting..." *)
| ErrorReport.                  (* f"Error: {str(e)}" *)

(** What the program does, seen from outside. *)
Inductive step : Type :=
| Setup_gpio (ok : bool)        (* the three gpiod calls of setup_gpio *)
| Setup_uart (ok : bool)        (* serial.Serial(...) *)
| Construct (ok : bool)         (* Adafruit_Fingerprint(uart) *)
| Verify (r : reply)            (* finger.verify_password() *)
| Templates (r : reply)         (* finger.read_templates() *)
| Say (m : notice)
| Choice (c : option string)    (* input("> ").lower(); None: end of input *)
| Branch (e : event)            (* an event of a menu branch *)
| Close_chip                    (* chip.close() *)
| Close_uart                    (* uart.close() *)
| Exit (code : Z).              (* sys.exit(code) *)

(** A run of the program: the exit code of the process ([None] while a
    polling loop is still spinning), the replies consumed and the steps
    made.  A run is followed as far as the program takes it by itself:
    an interrupt from the keyboard, which can cut a run short at any
    point, is not part of it. *)
Record session : Type := Session {
  exit_code : option Z;
  reached : nat;
  steps : list step
}.

Definition sbefore (es : list step) (s : session) : session :=
  Session (exit_code s) (reached s) (es ++ steps s).

(** An exception that leaves [main]: the handler under [__main__]
    prints it and calls [sys.exit(1)].  The exceptions followed here
    are those raised by a sensor round trip, by the constructor of the
    sensor object, by [int] and by [input] at the end of the input, all
    of class [Exception], which the handler catches. *)
Definition crashed (n : nat) (es : list step) : session :=
  Session (Some 1) n (es ++ [Say ErrorReport; Exit 1]).

(** [sys.exit(1)]: SystemExit is not an [Exception], the handler lets it
    pass. *)
Definition gave_up (n : nat) (es : list step) : session :=
  Session (Some 1) n (es ++ [Exit 1]).

(** A menu branch, then the rest of the loop. *)
Definition after_branch (r : run unit) (k : nat -> session) : session :=
  match res r with
  | Done _ => sbefore (map Branch (tr r)) (k (pos r))
  | Raised => crashed (pos r) (map Branch (tr r))
  | Starved => Session None (pos r) (map Branch (tr r))
  end.

(** The prints of one turn of the menu, before and after
    [read_templates]. *)
Definition menu_head : list step := [Say BlankLine; Say Rule].

Definition menu_text : list step :=
  [Say TemplateList; Say MenuEnroll; Say MenuFind; Say MenuDelete;
   Say MenuQuit; Say Rule].

(** The [q] branch, each of whose calls returns. *)
Definition quit_steps : list step :=
  [Say Exiting; Branch (Led 0); Close_chip; Close_uart].

Section Main.

Context {codes : StatusCodes}.

Variable sensor : nat -> reply.

(** Python's [str.lower] and [int], builtins the example calls. *)
Variable lower : string -> string.
Variable parse_int : string -> option Z.

(** The line typed after a choice, as [int(input(...))] reads it; at
    the end of input it raises like a line that is not a number. *)
Definition typed_of (rest : list string) : option Z :=
  match rest with
  | [] => None
  | x :: _ => parse_int x
  end.

(** The [while True] loop of [main], from the lines still to be typed.
    [fuel] bounds the polling loops of the branches. *)
Fixpoint menu (fuel : nat) (stdin : list string) (n : nat) {struct stdin}
    : session :=
  sbefore menu_head
    match sensor n with
    | Raise => crashed (S n) [Templates Raise]
    | Status s =>
        if negb (s =? OK) then crashed (S n) [Templates (Status s)]
        else
          sbefore (Templates (Status s) :: menu_text)
            match stdin with
            | [] => crashed (S n) [Choice None]
            | l :: rest =>
                let c := lower l in
                let rest' := match rest with [] => rest | _ :: r => r end in
                sbefore [Choice (Some c)]
                  (if (c =? "e")%string then
                     after_branch
                       (main_enroll sensor fuel (typed_of rest) (S n))
                       (menu fuel rest')
                   else if (c =? "f")%string then
                     after_branch (main_find sensor fuel (S n))
                       (menu fuel rest)
                   else if (c =? "d")%string then
                     after_branch (main_delete sensor (typed_of rest) (S n))
                       (menu fuel rest')
                   else if (c =? "q")%string then
                     Session (Some 0) (S n) quit_steps
                   else menu fuel rest (S n))
            end
    end.

(** [main] under the handler of [__main__]: which of the set-up calls
    succeed is given. *)
Definition program (gpio_ok uart_ok finger_ok : bool) (fuel : nat)
    (stdin : list string) : session :=
  if negb gpio_ok then gave_up 0 [Setup_gpio false; Say GpioSetupError]
  else
    sbefore [Setup_gpio true]
      (if negb uart_ok then gave_up 0 [Setup_uart false; Say UartSetupError]
       else
         sbefore [Setup_uart true]
           (if negb finger_ok then crashed 0 [Construct false]
            else
              sbefore [Construct true]
                match sensor 0 with
                | Raise => crashed 1 [Verify Raise]
                | Status s =>
                    if negb (s =? OK)
                    then gave_up 1 [Verify (Status s); Say SensorNotFound]
                    else
                      sbefore [Verify (Status s); Say SensorFound]
                        (menu fuel stdin 1)
                end)).

End Main.

(** ** The shape of every session *)

Section Sessions.

Context {codes : StatusCodes}.
Variable sensor : nat -> reply.
Variable lower : string -> string.
Variable parse_int : string -> option Z.

(** A turn of the menu up to the prompt: the prints, a successful
    [read_templates], the menu. *)
Definition turn_open : list step :=
  menu_head ++ Templates (Status OK) :: menu_text.

(** The runs of the three branches that talk to the sensor. *)
Inductive branch_run (fuel : nat) : string -> run unit -> Prop :=
| br_enroll (typed : option Z) (n : nat) :
    branch_run fuel "e" (main_enroll sensor fuel typed n)
| br_find (n : nat) :
    branch_run fuel "f" (main_find sensor fuel n)
| br_delete (typed : option Z) (n : nat) :
    branch_run fuel "d" (main_delete sensor typed n).

(** The sessions of the menu loop. *)
Inductive menu_run (fuel : nat) : session -> Prop :=
| mr_templates (n : nat) (r : reply) :
    r <> Status OK ->
    menu_run fuel (sbefore menu_head (crashed n [Templates r]))
| mr_eof (n : nat) :
    menu_run fuel (sbefore turn_open (crashed n [Choice None]))
| mr_quit (n : nat) :
    menu_run fuel
      (sbefore (turn_open ++ [Choice (Some "q"%string)])
         (Session (Some 0) n quit_steps))
| mr_crash (c : string) (r : run unit) :
    branch_run fuel c r -> res r = Raised ->
    menu_run fuel
      (sbefore (turn_open ++ [Choice (Some c)])
         (crashed (pos r) (map Branch (tr r))))
| mr_spin (c : string) (r : run unit) :
    branch_run fuel c r -> res r = Starved ->
    menu_run fuel
      (sbefore (turn_open ++ [Choice (Some c)])
         (Session None (pos r) (map Branch (tr r))))
| mr_next (c : string) (r : run unit) (s : session) :
    branch_run fuel c r -> res r = Done tt -> menu_run fuel s ->
    menu_run fuel
      (sbefore (turn_open ++ [Choice (Some c)] ++ map Branch (tr r)) s)
| mr_other (c : string) (s : session) :
    c <> "e"%string -> c <> "f"%string -> c <> "d"%string ->
    c <> "q"%string -> menu_run fuel s ->
    menu_run fuel (sbefore (turn_open ++ [Choice (Some c)]) s).

Lemma menu_run_eq (fuel : nat) (s s' : session) :
  menu_run fuel s -> s = s' -> menu_run fuel s'.
Proof. now intros H <-. Qed.

Lemma sbefore_sbefore (es fs : list step) (s : session) :
  sbefore es (sbefore fs s) = sbefore (es ++ fs) s.
Proof. unfold sbefore; cbn. now rewrite app_assoc. Qed.

(** Induction over the lines typed, two at a time where a branch reads
    a second line. *)
Lemma stdin_ind (P : list string -> Prop) :
  P [] ->
  (forall l rest,
     P rest -> P (match rest with [] => rest | _ :: r => r end) ->
     P (l :: rest)) ->
  forall stdin, P stdin.
Proof.
  intros H0 Hs stdin.
  assert (H : P stdin /\ P (match stdin with [] => stdin | _ :: r => r end)).
  { induction stdin as [|l rest [IH1 IH2]]; [split; exact H0|].
    split; [now apply Hs|exact IH1]. }
  apply H.
Qed.

Lemma after_branch_run (fuel : nat) (c : string) (r : run unit)
    (k : nat -> session) :
  branch_run fuel c r ->
  (forall p, menu_run fuel (k p)) ->
  menu_run fuel
    (sbefore (turn_open ++ [Choice (Some c)]) (after_branch r k)).
Proof.
  intros Hb Hk. unfold after_branch.
  destruct (res r) as [[]| |] eqn:E.
  - eapply menu_run_eq; [apply (mr_next fuel c r (k (pos r)) Hb E (Hk _))|].
    rewrite sbefore_sbefore. f_equal; try list_eq.
  - now apply mr_crash.
  - now apply mr_spin.
Qed.

Lemma menu_spec (fuel : nat) (stdin : list string) (n : nat) :
  menu_run fuel (menu sensor lower parse_int fuel stdin n).
Proof.
  revert n. induction stdin as [|l rest IH1 IH2] using stdin_ind; intros n.
  - cbn [menu]. destruct (sensor n) as [s|].
    + destruct (Z.eqb_spec s OK) as [->|Hs]; cbn [negb].
      * rewrite sbefore_sbefore. apply mr_eof.
      * apply mr_templates. congruence.
    + apply mr_templates. discriminate.
  - cbn [menu]. destruct (sensor n) as [s|].
    + destruct (Z.eqb_spec s OK) as [->|Hs]; cbn [negb].
      * rewrite !sbefore_sbefore.
        change (menu_head ++ Templates (Status OK) :: menu_text)
          with turn_open.
        destruct (String.eqb_spec (lower l) "e") as [->|He].
        { apply after_branch_run; [apply br_enroll|apply IH2]. }
        destruct (String.eqb_spec (lower l) "f") as [->|Hf].
        { apply after_branch_run; [apply br_find|apply IH1]. }
        destruct (String.eqb_spec (lower l) "d") as [->|Hd].
        { apply after_branch_run; [apply br_delete|apply IH2]. }
        destruct (String.eqb_spec (lower l) "q") as [->|Hq].
        { apply mr_quit. }
        now apply mr_other.
      * apply mr_templates. congruence.
    + apply mr_templates. discriminate.
Qed.

End Sessions.

(** ** What every session keeps *)

(** Where an element stands that does not occur in the front part of a
    list. *)
Lemma split_after {A : Type} (P : A -> Prop) (a b pre post : list A) (y : A) :
  Forall P a -> ~ P y ->
  a ++ b = pre ++ y :: post ->
  exists p, pre = a ++ p /\ b = p ++ y :: post.
Proof.
  intros Ha Hy. revert pre.
  induction Ha as [|x a Hx Ha IH]; intros pre E.
  - exists pre. split; [reflexivity|exact E].
  - destruct pre as [|z pre]; cbn in E.
    + injection E as -> _. contradiction.
    + injection E as -> E. destruct (IH pre E) as (p & -> & Hb).
      now exists p.
Qed.

(** Steps other than a prompt for a choice, and steps that close
    neither the chip nor the port. *)
Definition no_choice (e : step) : Prop :=
  match e with Choice _ => False | _ => True end.

Definition no_close (e : step) : Prop :=
  match e with Close_chip | Close_uart => False | _ => True end.

Lemma branch_no_choice (t : list event) : Forall no_choice (map Branch t).
Proof. induction t; cbn; constructor; auto. exact I. Qed.

Lemma branch_no_close (t : list event) : Forall no_close (map Branch t).
Proof. induction t; cbn; constructor; auto. exact I. Qed.

Lemma turn_open_no_choice {codes : StatusCodes} : Forall no_choice turn_open.
Proof. repeat constructor. Qed.

Lemma turn_open_no_close {codes : StatusCodes} : Forall no_close turn_open.
Proof. repeat constructor. Qed.

(** The state of the LED line after some steps, from its state before:
    [set_value(0)] puts it out, any other value lights it. *)
Definition lit (on : bool) (e : step) : bool :=
  match e with
  | Branch (Led v) => negb (v =? 0)
  | _ => on
  end.

Definition led_after (on : bool) (es : list step) : bool :=
  fold_left lit es on.

Lemma led_after_app (on : bool) (es fs : list step) :
  led_after on (es ++ fs) = led_after (led_after on es) fs.
Proof. apply fold_left_app. Qed.

Lemma led_after_branch (on : bool) (t : list event) :
  led_after on (map Branch t) =
    fold_left (fun _ v => negb (v =? 0)) (leds_of t) on.
Proof.
  revert on. induction t as [|e t IH]; intros on; [reflexivity|].
  destruct e; cbn; apply IH.
Qed.

Lemma led_after_open {codes : StatusCodes} (on : bool) (c : option string) :
  led_after on (turn_open ++ [Choice c]) = on.
Proof. reflexivity. Qed.

Section SessionFacts.

Context {codes : StatusCodes}.
Variable sensor : nat -> reply.

Lemma find_bracketed (fuel n : nat) : bracketed (main_find sensor fuel n).
Proof.
  unfold main_find. rewrite bind_emit, <- bind_assoc.
  apply led_bracket. apply emits_bind.
  - eapply emits_weaken; [apply no_led_not_led|apply get_fingerprint_no_led].
  - intros [|]; apply emits_print; exact I.
Qed.

Lemma enroll_bracketed (fuel : nat) (typed : option Z) (n : nat) :
  bracketed (main_enroll sensor fuel typed n).
Proof.
  unfold main_enroll. rewrite bind_emit, <- bind_assoc.
  apply led_bracket. apply emits_bind.
  - intros k. destruct typed; cbn; repeat constructor.
  - intros location. apply emits_if; [|apply emits_ret].
    apply emits_bind; [|intros _; apply emits_ret].
    eapply emits_weaken; [apply no_led_not_led|apply enroll_finger_no_led].
Qed.

Lemma delete_no_led (typed : option Z) (n : nat) :
  leds_of (tr (main_delete sensor typed n)) = [].
Proof.
  apply not_led_leds. revert n.
  change (emits not_led (main_delete sensor typed)).
  unfold main_delete. apply emits_bind.
  - intros k. destruct typed; cbn; repeat constructor.
  - intros location. apply emits_if; [|apply emits_ret].
    apply emits_bind.
    + apply emits_call; [intros ?; exact I|exact I].
    + intros i. apply emits_if; apply emits_print; exact I.
Qed.

(** A branch that ends normally leaves the LED out. *)
Lemma branch_leaves_led_out (fuel : nat) (c : string) (r : run unit) :
  branch_run sensor fuel c r -> res r = Done tt ->
  led_after false (map Branch (tr r)) = false.
Proof.
  intros H E. rewrite led_after_branch.
  destruct H as [typed n|n|typed n].
  - destruct (enroll_bracketed fuel typed n) as ((-> & _) & _);
      [exact E|reflexivity].
  - destruct (find_bracketed fuel n) as ((-> & _) & _);
      [exact E|reflexivity].
  - now rewrite delete_no_led.
Qed.

(** Exit codes and clean-up of the menu loop. *)
Lemma menu_exit (fuel : nat) (s : session) :
  menu_run sensor fuel s ->
  (exit_code s = Some 0 /\
   exists pre,
     Forall no_close pre /\
     steps s = pre ++ Choice (Some "q"%string) :: quit_steps) \/
  (exit_code s = Some 1 /\ Forall no_close (steps s) /\
   exists pre, steps s = pre ++ [Exit 1]) \/
  (exit_code s = None /\ Forall no_close (steps s)).
Proof.
  induction 1 as [n r Hr|n|n|c r Hb E|c r Hb E|c r s Hb E Hs IH
                  |c s H1 H2 H3 H4 Hs IH].
  - right; left. split; [reflexivity|]. split; [repeat constructor|].
    exists (menu_head ++ [Templates r; Say ErrorReport]). cbn. reflexivity.
  - right; left. split; [reflexivity|]. split; [repeat constructor|].
    exists (turn_open ++ [Choice None; Say ErrorReport]).
    cbn. reflexivity.
  - left. split; [reflexivity|]. exists turn_open.
    split; [apply turn_open_no_close|]. cbn. reflexivity.
  - right; left. split; [reflexivity|]. split.
    + cbn [steps sbefore crashed].
      repeat (apply Forall_app; split);
        try apply turn_open_no_close; try apply branch_no_close;
        repeat constructor.
    + exists ((turn_open ++ [Choice (Some c)]) ++ map Branch (tr r)
                ++ [Say ErrorReport]).
      cbn [steps sbefore crashed]. rewrite <- !app_assoc. reflexivity.
  - right; right. split; [reflexivity|].
    cbn [steps sbefore].
    repeat (apply Forall_app; split);
      try apply turn_open_no_close; try apply branch_no_close;
      repeat constructor.
  - assert (Hp : Forall no_close
                   (turn_open ++ [Choice (Some c)] ++ map Branch (tr r))).
    { repeat (apply Forall_app; split);
        try apply turn_open_no_close; try apply branch_no_close;
        repeat constructor. }
    cbn [steps sbefore exit_code].
    destruct IH as [(E0 & pre & Hpre & Es)|[(E1 & Hc & pre & Es)|(En & Hc)]].
    + left. split; [exact E0|].
      exists ((turn_open ++ [Choice (Some c)] ++ map Branch (tr r)) ++ pre).
      split; [now apply Forall_app|]. rewrite Es, <- !app_assoc. reflexivity.
    + right; left. split; [exact E1|]. split; [now apply Forall_app|].
      exists ((turn_open ++ [Choice (Some c)] ++ map Branch (tr r)) ++ pre).
      rewrite Es, <- !app_assoc. reflexivity.
    + right; right. split; [exact En|]. now apply Forall_app.
  - assert (Hp : Forall no_close (turn_open ++ [Choice (Some c)])).
    { apply Forall_app. split; [apply turn_open_no_close|].
      repeat constructor. }
    cbn [steps sbefore exit_code].
    destruct IH as [(E0 & pre & Hpre & Es)|[(E1 & Hc & pre & Es)|(En & Hc)]].
    + left. split; [exact E0|].
      exists ((turn_open ++ [Choice (Some c)]) ++ pre).
      split; [now apply Forall_app|]. rewrite Es, <- !app_assoc. reflexivity.
    + right; left. split; [exact E1|]. split; [now apply Forall_app|].
      exists ((turn_open ++ [Choice (Some c)]) ++ pre).
      rewrite Es, <- !app_assoc. reflexivity.
    + right; right. split; [exact En|]. now apply Forall_app.
Qed.

(** The LED is out at every prompt of the menu loop, and each prompt
    comes right after an opened turn. *)
Lemma menu_prompts (fuel : nat) (s : session) :
  menu_run sensor fuel s ->
  forall pre c post,
    steps s = pre ++ Choice c :: post ->
    led_after false pre = false /\
    exists pre', pre = pre' ++ turn_open.
Proof.
  assert (Hfirst : forall c0 rest pre c post,
            turn_open ++ Choice c0 :: rest = pre ++ Choice c :: post ->
            pre = turn_open \/
            exists m, pre = turn_open ++ Choice c0 :: m /\
                      rest = m ++ Choice c :: post).
  { intros c0 rest pre c post E.
    apply (split_after no_choice) in E;
      [|apply turn_open_no_choice|now intros F].
    destruct E as (p & -> & E).
    destruct p as [|z p]; cbn in E.
    - left. now rewrite app_nil_r.
    - injection E as <- E. right. now exists p. }
  assert (Hnone : forall es pre c post,
            Forall no_choice es -> es = pre ++ Choice c :: post -> False).
  { intros es pre c post Hes E. rewrite E, Forall_forall in Hes.
    apply (Hes (Choice c)), in_elt. }
  induction 1 as [n r Hr|n|n|c0 r Hb E|c0 r Hb E|c0 r s Hb E Hs IH
                  |c0 s H1 H2 H3 H4 Hs IH];
    intros pre c post Es; cbn [steps sbefore crashed] in Es.
  - exfalso. revert Es. apply Hnone. repeat constructor.
  - rewrite <- ?app_assoc in Es. cbn [app] in Es.
    apply Hfirst in Es. destruct Es as [->|(m & -> & Em)].
    + split; [reflexivity|]. now exists [].
    + exfalso. revert Em. apply Hnone. repeat constructor.
  - rewrite <- ?app_assoc in Es. cbn [app] in Es.
    apply Hfirst in Es. destruct Es as [->|(m & -> & Em)].
    + split; [reflexivity|]. now exists [].
    + exfalso. revert Em. apply Hnone. repeat constructor.
  - rewrite <- ?app_assoc in Es. cbn [app] in Es.
    apply Hfirst in Es. destruct Es as [->|(m & -> & Em)].
    + split; [reflexivity|]. now exists [].
    + exfalso. revert Em. apply Hnone.
      apply Forall_app. split; [apply branch_no_choice|repeat constructor].
  - rewrite <- ?app_assoc in Es. cbn [app] in Es.
    apply Hfirst in Es. destruct Es as [->|(m & -> & Em)].
    + split; [reflexivity|]. now exists [].
    + exfalso. revert Em. apply Hnone, branch_no_choice.
  - rewrite <- ?app_assoc in Es. cbn [app] in Es.
    apply Hfirst in Es. destruct Es as [->|(m & -> & Em)].
    + split; [reflexivity|]. now exists [].
    + apply (split_after no_choice) in Em;
        [|apply branch_no_choice|now intros F].
      destruct Em as (p & -> & Ep).
      destruct (IH p c post Ep) as (Hled & pre' & ->).
      split.
      * replace (turn_open ++ Choice (Some c0) :: map Branch (tr r)
                   ++ pre' ++ turn_open)
          with ((turn_open ++ [Choice (Some c0)]) ++ map Branch (tr r)
                  ++ (pre' ++ turn_open)) by list_eq.
        rewrite led_after_app, led_after_open, led_after_app.
        rewrite (branch_leaves_led_out fuel c0 r Hb E). exact Hled.
      * exists (turn_open ++ Choice (Some c0) :: map Branch (tr r) ++ pre').
        list_eq.
  - rewrite <- ?app_assoc in Es. cbn [app] in Es.
    apply Hfirst in Es. destruct Es as [->|(m & -> & Em)].
    + split; [reflexivity|]. now exists [].
    + destruct (IH m c post Em) as (Hled & pre' & ->).
      split.
      * replace (turn_open ++ Choice (Some c0) :: pre' ++ turn_open)
          with ((turn_open ++ [Choice (Some c0)]) ++ (pre' ++ turn_open))
          by list_eq.
        rewrite led_after_app, led_after_open. exact Hled.
      * exists (turn_open ++ Choice (Some c0) :: pre').
        list_eq.
Qed.

End SessionFacts.

(** ** The whole program *)

(** One failed start: the steps before [Exit 1] are [pre]. *)
Ltac failed_start pre :=
  cbv zeta; cbn;
  split; [reflexivity|];
  split; [lia|];
  split; [repeat constructor|];
  split; [exists pre; reflexivity|];
  split;
  [ intros Hin; first [ now (exfalso; intuition discriminate) | auto ]
  | intros (F1 & F2 & [F3|F3]);
    first [ discriminate | congruence | now (cbn; auto 10) ] ].

Section ProgramFacts.

Context {codes : StatusCodes}.
Variable sensor : nat -> reply.
Variable lower : string -> string.
Variable parse_int : string -> option Z.

(** The steps of a start-up in which everything succeeded. *)
Definition boot : list step :=
  [Setup_gpio true; Setup_uart true; Construct true; Verify (Status OK);
   Say SensorFound].

(** Every set-up call succeeded and the password was verified. *)
Definition started (gpio_ok uart_ok finger_ok : bool) : Prop :=
  gpio_ok = true /\ uart_ok = true /\ finger_ok = true /\
  sensor 0%nat = Status OK.

(** Steps of the start-up: no turn of the menu, no branch, no
    clean-up. *)
Definition boot_step (e : step) : Prop :=
  match e with
  | Templates _ | Choice _ | Branch _ | Close_chip | Close_uart => False
  | Say BlankLine | Say Rule | Say Exiting => False
  | _ => True
  end.

Lemma program_started (gpio_ok uart_ok finger_ok : bool) (fuel : nat)
    (stdin : list string) :
  started gpio_ok uart_ok finger_ok ->
  program sensor lower parse_int gpio_ok uart_ok finger_ok fuel stdin =
    sbefore boot (menu sensor lower parse_int fuel stdin 1).
Proof.
  intros (-> & -> & -> & E). unfold program. cbn [negb]. rewrite E.
  rewrite Z.eqb_refl. cbn [negb]. rewrite !sbefore_sbefore. reflexivity.
Qed.

Lemma program_failed (gpio_ok uart_ok finger_ok : bool) (fuel : nat)
    (stdin : list string) :
  ~ started gpio_ok uart_ok finger_ok ->
  let s := program sensor lower parse_int gpio_ok uart_ok finger_ok fuel
             stdin in
  exit_code s = Some 1 /\ (reached s <= 1)%nat /\
  Forall boot_step (steps s) /\
  (exists pre, steps s = pre ++ [Exit 1]) /\
  (In (Say ErrorReport) (steps s) <->
   gpio_ok = true /\ uart_ok = true /\
   (finger_ok = false \/ sensor 0%nat = Raise)).
Proof.
  intros H. unfold program.
  destruct gpio_ok; cbn [negb];
    [destruct uart_ok; cbn [negb];
     [destruct finger_ok; cbn [negb];
      [destruct (sensor 0%nat) as [s0|] eqn:E;
       [destruct (Z.eqb_spec s0 OK) as [->|Hs]; cbn [negb]|]|]|]|].
  - exfalso. apply H. repeat split. exact E.
  - failed_start
      [Setup_gpio true; Setup_uart true; Construct true;
       Verify (Status s0); Say SensorNotFound].
  - failed_start
      [Setup_gpio true; Setup_uart true; Construct true;
       Verify Raise; Say ErrorReport].
  - failed_start
      [Setup_gpio true; Setup_uart true; Construct false; Say ErrorReport].
  - failed_start [Setup_gpio true; Setup_uart false; Say UartSetupError].
  - failed_start [Setup_gpio false; Say GpioSetupError].
Qed.

Lemma started_dec (gpio_ok uart_ok finger_ok : bool) :
  started gpio_ok uart_ok finger_ok \/ ~ started gpio_ok uart_ok finger_ok.
Proof.
  unfold started.
  destruct gpio_ok, uart_ok, finger_ok;
    try (right; intros (F1 & F2 & F3 & _); discriminate).
  destruct (sensor 0%nat) as [s|].
  - destruct (Z.eq_dec s OK) as [->|Hs]; [left; auto|].
    right. intros (_ & _ & _ & [= F]). contradiction.
  - right. intros (_ & _ & _ & F). discriminate.
Qed.

Lemma boot_step_no_close (es : list step) :
  Forall boot_step es -> Forall no_close es.
Proof. apply Forall_impl. intros e. now destruct e. Qed.

Lemma boot_step_no_choice (es : list step) :
  Forall boot_step es -> Forall no_choice es.
Proof. apply Forall_impl. intros e. now destruct e. Qed.

Lemma boot_boot_step : Forall boot_step boot.
Proof. repeat constructor. Qed.

(** Exit codes and clean-up of the program. *)
Lemma program_exit (gpio_ok uart_ok finger_ok : bool) (fuel : nat)
    (stdin : list string) :
  let s := program sensor lower parse_int gpio_ok uart_ok finger_ok fuel
             stdin in
  (exit_code s = Some 0 /\
   exists pre,
     Forall no_close pre /\
     steps s = pre ++ Choice (Some "q"%string) :: quit_steps) \/
  (exit_code s = Some 1 /\ Forall no_close (steps s) /\
   exists pre, steps s = pre ++ [Exit 1]) \/
  (exit_code s = None /\ Forall no_close (steps s)).
Proof.
  cbv zeta. destruct (started_dec gpio_ok uart_ok finger_ok) as [H|H].
  - rewrite (program_started _ _ _ fuel stdin H).
    pose proof (menu_exit sensor fuel _
                  (menu_spec sensor lower parse_int fuel stdin 1)) as Hm.
    cbn [exit_code steps sbefore].
    pose proof (boot_step_no_close _ boot_boot_step) as Hb.
    destruct Hm as [(E0 & pre & Hpre & Es)|[(E1 & Hc & pre & Es)|(En & Hc)]].
    + left. split; [exact E0|]. exists (boot ++ pre).
      split; [now apply Forall_app|]. rewrite Es. list_eq.
    + right; left. split; [exact E1|]. split; [now apply Forall_app|].
      exists (boot ++ pre). rewrite Es. list_eq.
    + right; right. split; [exact En|]. now apply Forall_app.
  - destruct (program_failed _ _ _ fuel stdin H) as (E & _ & Hb & Hx & _).
    right; left. split; [exact E|]. split; [|exact Hx].
    now apply boot_step_no_close.
Qed.

(** The prompts of the program. *)
Lemma program_prompts (gpio_ok uart_ok finger_ok : bool) (fuel : nat)
    (stdin : list string) (pre : list step) (c : option string)
    (post : list step) :
  steps (program sensor lower parse_int gpio_ok uart_ok finger_ok fuel stdin)
    = pre ++ Choice c :: post ->
  started gpio_ok uart_ok finger_ok /\
  led_after false pre = false /\
  exists pre', pre = pre' ++ turn_open.
Proof.
  intros E. destruct (started_dec gpio_ok uart_ok finger_ok) as [H|H].
  - split; [exact H|].
    rewrite (program_started _ _ _ fuel stdin H) in E.
    cbn [steps sbefore] in E.
    apply (split_after no_choice) in E;
      [|apply boot_step_no_choice, boot_boot_step|now intros F].
    destruct E as (p & -> & Ep).
    destruct (menu_prompts sensor fuel _
                (menu_spec sensor lower parse_int fuel stdin 1) p c post Ep)
      as (Hled & pre' & ->).
    split.
    + rewrite led_after_app. exact Hled.
    + exists (boot ++ pre'). list_eq.
  - exfalso.
    destruct (program_failed _ _ _ fuel stdin H) as (_ & _ & Hb & _).
    apply boot_step_no_choice in Hb. rewrite E, Forall_forall in Hb.
    apply (Hb (Choice c)), in_elt.
Qed.

End ProgramFacts.

(** X7: the process ends with exit code 0 exactly when the user chose
    [q] and the branch ran to its end: the run then ends with the
    farewell, the LED put out, the chip closed and the port closed, in
    that order.  The chip and the port are closed nowhere else: wherever
    the chip is closed, the choice of [q], the farewell and the LED put
    out stand right before, and wherever the port is closed, the chip
    was closed right before. *)
Theorem X7_exit_zero_iff_quit {codes : StatusCodes}
    (sensor : nat -> reply) (lower : string -> string)
    (parse_int : string -> option Z) (gpio_ok uart_ok finger_ok : bool)
    (fuel : nat) (stdin : list string) :
  let s := program sensor lower parse_int gpio_ok uart_ok finger_ok fuel
             stdin in
  (exit_code s = Some 0 <->
   exists pre, steps s = pre ++ Choice (Some "q"%string) :: quit_steps) /\
  (forall pre post,
     steps s = pre ++ Close_chip :: post ->
     exists pre',
       pre = pre' ++ [Choice (Some "q"%string); Say Exiting;
                      Branch (Led 0)]) /\
  (forall pre post,
     steps s = pre ++ Close_uart :: post ->
     exists pre', pre = pre' ++ [Close_chip]).
Proof.
  cbv zeta.
  pose proof (program_exit sensor lower parse_int gpio_ok uart_ok finger_ok
                fuel stdin) as H.
  cbv zeta in H.
  destruct (program sensor lower parse_int gpio_ok uart_ok finger_ok fuel
              stdin) as [x p es].
  cbn [exit_code steps] in *.
  assert (Hclose : forall pre e post,
            Forall no_close es -> es = pre ++ e :: post -> no_close e).
  { intros pre e post Hall E. rewrite Forall_forall in Hall.
    apply Hall. rewrite E. apply in_elt. }
  assert (Hq : forall pre,
            es = pre ++ Choice (Some "q"%string) :: quit_steps ->
            Forall no_close es -> False).
  { intros pre E Hall.
    apply (Hclose (pre ++ [Choice (Some "q"%string); Say Exiting;
                           Branch (Led 0)]) Close_chip [Close_uart] Hall).
    rewrite E. unfold quit_steps. list_eq. }
  destruct H as [(E0 & pre & Hpre & Es)|[(E1 & Hc & pre & Es)|(En & Hc)]].
  - assert (Hpre' : forall e, ~ no_close e ->
              Forall (fun e' => e' <> e) pre).
    { intros e He. eapply Forall_impl; [|exact Hpre].
      intros e' He' ->. contradiction. }
    split; [|split].
    + split; [intros _; now exists pre|intros _; exact E0].
    + intros p1 post E. rewrite Es in E.
      replace (pre ++ Choice (Some "q"%string) :: quit_steps)
        with ((pre ++ [Choice (Some "q"%string); Say Exiting;
                       Branch (Led 0)]) ++ Close_chip :: [Close_uart])
        in E by (unfold quit_steps; list_eq).
      apply (split_once (fun e => e <> Close_chip)) in E.
      * destruct E as (-> & _). now exists pre.
      * apply Forall_app. split; [now apply Hpre'|].
        repeat constructor; discriminate.
      * repeat constructor; discriminate.
      * intros F. now apply F.
      * intros F. now apply F.
    + intros p1 post E. rewrite Es in E.
      replace (pre ++ Choice (Some "q"%string) :: quit_steps)
        with ((pre ++ [Choice (Some "q"%string); Say Exiting;
                       Branch (Led 0); Close_chip]) ++ Close_uart :: [])
        in E by (unfold quit_steps; list_eq).
      apply (split_once (fun e => e <> Close_uart)) in E.
      * destruct E as (-> & _).
        exists (pre ++ [Choice (Some "q"%string); Say Exiting;
                        Branch (Led 0)]). list_eq.
      * apply Forall_app. split; [now apply Hpre'|].
        repeat constructor; discriminate.
      * constructor.
      * intros F. now apply F.
      * intros F. now apply F.
  - split; [|split].
    + split; [rewrite E1; discriminate|].
      intros (pre' & E). exfalso. exact (Hq _ E Hc).
    + intros p1 post E. exfalso. exact (Hclose _ _ _ Hc E).
    + intros p1 post E. exfalso. exact (Hclose _ _ _ Hc E).
  - split; [|split].
    + split; [rewrite En; discriminate|].
      intros (pre' & E). exfalso. exact (Hq _ E Hc).
    + intros p1 post E. exfalso. exact (Hclose _ _ _ Hc E).
    + intros p1 post E. exfalso. exact (Hclose _ _ _ Hc E).
Qed.

(** X8: the LED is out whenever the menu waits for a choice: at every
    prompt the last value written to the line, if any, is 0. *)
Theorem X8_led_out_at_every_prompt {codes : StatusCodes}
    (sensor : nat -> reply) (lower : string -> string)
    (parse_int : string -> option Z) (gpio_ok uart_ok finger_ok : bool)
    (fuel : nat) (stdin : list string) (pre : list step)
    (c : option string) (post : list step) :
  steps (program sensor lower parse_int gpio_ok uart_ok finger_ok fuel stdin)
    = pre ++ Choice c :: post ->
  led_after false pre = false.
Proof. intros E. now apply program_prompts in E. Qed.

(** X9: the menu never waits for a choice without a fresh template
    list: right before every prompt stand the heading, a
    [read_templates] round trip that answered Ok and the menu text; and a
    prompt is only reached after every set-up call succeeded and the
    password was verified. *)
Theorem X9_prompt_follows_template_read {codes : StatusCodes}
    (sensor : nat -> reply) (lower : string -> string)
    (parse_int : string -> option Z) (gpio_ok uart_ok finger_ok : bool)
    (fuel : nat) (stdin : list string) (pre : list step)
    (c : option string) (post : list step) :
  steps (program sensor lower parse_int gpio_ok uart_ok finger_ok fuel stdin)
    = pre ++ Choice c :: post ->
  (exists pre', pre = pre' ++ turn_open) /\
  gpio_ok = true /\ uart_ok = true /\ finger_ok = true /\
  sensor 0%nat = Status OK.
Proof.
  intros E. apply program_prompts in E.
  destruct E as (H & _ & Hp). split; [exact Hp|exact H].
Qed.

(** X10: when a set-up call fails or the password is not verified, the
    process ends with exit code 1 before any turn of the menu: no LED
    write, no branch, at most the one round trip of [verify_password].
    The error report of the handler is printed exactly when the failure
    was an exception (the sensor object could not be made, or
    [verify_password] raised), not for the failures that call
    [sys.exit(1)]. *)
Theorem X10_failed_start {codes : StatusCodes}
    (sensor : nat -> reply) (lower : string -> string)
    (parse_int : string -> option Z) (gpio_ok uart_ok finger_ok : bool)
    (fuel : nat) (stdin : list string) :
  ~ started sensor gpio_ok uart_ok finger_ok ->
  let s := program sensor lower parse_int gpio_ok uart_ok finger_ok fuel
             stdin in
  exit_code s = Some 1 /\ (reached s <= 1)%nat /\
  Forall boot_step (steps s) /\
  (In (Say ErrorReport) (steps s) <->
   gpio_ok = true /\ uart_ok = true /\
   (finger_ok = false \/ sensor 0%nat = Raise)).
Proof.
  intros H. cbv zeta.
  destruct (program_failed sensor lower parse_int _ _ _ fuel stdin H)
    as (E & Hr & Hb & _ & He).
  auto.
Qed.

(** ** A session at the keyboard *)

From Stdlib Require Import Ascii DecimalString.

(** Lower case for the letters of ASCII, and decimal numerals: what
    [str.lower] and [int] do on the lines used below. *)
Definition lower_char (c : ascii) : ascii :=
  let n := nat_of_ascii c in
  if ((65 <=? n) && (n <=? 90))%nat then ascii_of_nat (n + 32) else c.

Fixpoint ascii_lower (s : string) : string :=
  match s with
  | EmptyString => EmptyString
  | String c s' => String (lower_char c) (ascii_lower s')
  end.

Definition decimal (s : string) : option Z :=
  option_map Z.of_uint (NilEmpty.uint_of_string s).

(** The user looks for a finger, deletes slot 12, mistypes, and quits;
    the sensor verifies the password, lists its templates before every
    prompt, sees the finger at the second poll, finds it and deletes. *)
Definition evening : nat -> reply :=
  replay [Status OK; Status OK; Status NOFINGER; Status OK; Status OK;
          Status OK; Status OK; Status OK; Status OK; Status OK] (Status OK).

Definition keys : list string := ["F"; "d"; "12"; "x"; "Q"]%string.

Definition evening_session : session :=
  program evening ascii_lower decimal true true true 5 keys.

Section LedAtExit.

Context {codes : StatusCodes}.
Variable sensor : nat -> reply.

(** A branch that does not end normally leaves the LED lit if it is
    the enroll or the find branch, and out if it is the delete branch. *)
Lemma branch_left_led (fuel : nat) (c : string) (r : run unit) :
  branch_run sensor fuel c r -> res r <> Done tt ->
  led_after false (map Branch (tr r)) = true ->
  c = "e"%string \/ c = "f"%string.
Proof.
  intros H _ Hl. destruct H as [typed n|n|typed n]; auto.
  rewrite led_after_branch, delete_no_led in Hl. discriminate.
Qed.

Lemma led_after_turn (on : bool) (c : option string) (rest : list step) :
  led_after on ((turn_open ++ [Choice c]) ++ rest) = led_after on rest.
Proof. now rewrite led_after_app, led_after_open. Qed.

(** The LED at the end of the menu loop. *)
Lemma menu_led_at_exit (fuel : nat) (s : session) :
  menu_run sensor fuel s ->
  (exit_code s = Some 0 -> led_after false (steps s) = false) /\
  (exit_code s = Some 1 -> led_after false (steps s) = true ->
   exists pre c t,
     (c = "e"%string \/ c = "f"%string) /\
     steps s = pre ++ Choice (Some c) :: map Branch t
                 ++ [Say ErrorReport; Exit 1]).
Proof.
  induction 1 as [n r Hr|n|n|c r Hb E|c r Hb E|c r s Hb E Hs IH
                  |c s H1 H2 H3 H4 Hs IH];
    cbn [steps sbefore crashed exit_code].
  - split; [discriminate|]. intros _ F. discriminate.
  - split; [discriminate|]. intros _ F. discriminate.
  - split; [reflexivity|discriminate].
  - split; [discriminate|]. intros _ Hl.
    rewrite led_after_turn, led_after_app in Hl.
    assert (Hb' : led_after false (map Branch (tr r)) = true).
    { destruct (led_after false (map Branch (tr r))); [reflexivity|].
      discriminate. }
    exists turn_open, c, (tr r). split.
    + apply (branch_left_led fuel c r Hb); [congruence|exact Hb'].
    + list_eq.
  - split; discriminate.
  - replace (turn_open ++ [Choice (Some c)] ++ map Branch (tr r))
      with ((turn_open ++ [Choice (Some c)]) ++ map Branch (tr r))
      by list_eq.
    rewrite (led_after_app _ ((turn_open ++ [Choice (Some c)])
                                ++ map Branch (tr r))),
      led_after_turn, (branch_leaves_led_out sensor fuel c r Hb E).
    destruct IH as (IH0 & IH1). split; [exact IH0|].
    intros E1 Hl. destruct (IH1 E1 Hl) as (pre & c' & t & Hc & ->).
    exists (((turn_open ++ [Choice (Some c)]) ++ map Branch (tr r)) ++ pre),
      c', t.
    split; [exact Hc|list_eq].
  - rewrite led_after_turn.
    destruct IH as (IH0 & IH1). split; [exact IH0|].
    intros E1 Hl. destruct (IH1 E1 Hl) as (pre & c' & t & Hc & ->).
    exists ((turn_open ++ [Choice (Some c)]) ++ pre), c', t.
    split; [exact Hc|list_eq].
Qed.

End LedAtExit.

(** X11: a process that ends with exit code 0 leaves the LED out.  One
    that ends with exit code 1 can leave it lit, and only in one way: an
    exception left the enroll or the find branch, whose [set_value(0)]
    was then never reached. *)
Theorem X11_led_at_exit {codes : StatusCodes}
    (sensor : nat -> reply) (lower : string -> string)
    (parse_int : string -> option Z) (gpio_ok uart_ok finger_ok : bool)
    (fuel : nat) (stdin : list string) :
  let s := program sensor lower parse_int gpio_ok uart_ok finger_ok fuel
             stdin in
  (exit_code s = Some 0 -> led_after false (steps s) = false) /\
  (exit_code s = Some 1 -> led_after false (steps s) = true ->
   exists pre c t,
     (c = "e"%string \/ c = "f"%string) /\
     steps s = pre ++ Choice (Some c) :: map Branch t
                 ++ [Say ErrorReport; Exit 1]).
Proof.
  cbv zeta. destruct (started_dec sensor gpio_ok uart_ok finger_ok) as [H|H].
  - rewrite (program_started sensor lower parse_int _ _ _ fuel stdin H).
    destruct (menu_led_at_exit sensor fuel _
                (menu_spec sensor lower parse_int fuel stdin 1))
      as (H0 & H1).
    cbn [exit_code steps sbefore]. rewrite led_after_app.
    change (led_after false boot) with false.
    split; [exact H0|].
    intros E1 Hl. destruct (H1 E1 Hl) as (pre & c & t & Hc & ->).
    exists (boot ++ pre), c, t. split; [exact Hc|list_eq].
  - destruct (program_failed sensor lower parse_int _ _ _ fuel stdin H)
      as (E & _ & Hb & _).
    assert (Hl : forall es, Forall boot_step es ->
                            led_after false es = false).
    { intros es Hes. unfold led_after.
      assert (G : forall on, fold_left lit es on = on).
      { induction Hes as [|e es He _ IH]; intros on; [reflexivity|].
        cbn. rewrite IH. destruct e; try reflexivity. contradiction. }
      apply G. }
    split.
    + intros _. now apply Hl.
    + intros _ F. rewrite (Hl _ Hb) in F. discriminate.
Qed.

(** The sensor raises while the user looks for a finger. *)
Definition broken_search : session :=
  program (replay [Status OK; Status OK; Status OK; Status OK; Raise]
             (Status OK))
    ascii_lower decimal true true true 5 ["f"%string].

Lemma X11_led_at_exit_witness :
  exists pre c t,
    (c = "e"%string \/ c = "f"%string) /\
    steps broken_search =
      pre ++ Choice (Some c) :: map Branch t ++ [Say ErrorReport; Exit 1].
Proof.
  apply (X11_led_at_exit
           (replay [Status OK; Status OK; Status OK; Status OK; Raise]
              (Status OK))
           ascii_lower decimal true true true 5 ["f"%string]);
    reflexivity.
Defined.

Lemma X8_led_out_at_every_prompt_witness :
  led_after false (firstn 34 (steps evening_session)) = false.
Proof.
  apply (X8_led_out_at_every_prompt evening ascii_lower decimal
           true true true 5 keys (firstn 34 (steps evening_session))
           (Some "d"%string) (skipn 35 (steps evening_session))).
  reflexivity.
Defined.

Lemma X9_prompt_follows_template_read_witness :
  (exists pre', firstn 34 (steps evening_session) = pre' ++ turn_open) /\
  true = true /\ true = true /\ true = true /\ evening 0%nat = Status OK.
Proof.
  apply (X9_prompt_follows_template_read evening ascii_lower decimal
           true true true 5 keys (firstn 34 (steps evening_session))
           (Some "d"%string) (skipn 35 (steps evening_session))).
  reflexivity.
Defined.

Lemma X10_failed_start_witness :
  let s := program evening ascii_lower decimal true false true 5 keys in
  exit_code s = Some 1 /\ (reached s <= 1)%nat /\
  Forall boot_step (steps s) /\
  (In (Say ErrorReport) (steps s) <->
   true = true /\ false = true /\ (true = false \/ evening 0%nat = Raise)).
Proof.
  apply (X10_failed_start evening ascii_lower decimal true false true 5 keys).
  intros (_ & F & _). discriminate.
Defined.

Lemma X7_exit_zero_iff_quit_witness :
  exit_code evening_session = Some 0 /\
  exists pre',
    firstn 60 (steps evening_session) =
      pre' ++ [Choice (Some "q"%string); Say Exiting; Branch (Led 0)].
Proof.
  destruct (X7_exit_zero_iff_quit evening ascii_lower decimal
              true true true 5 keys) as (H1 & H2 & _).
  split.
  - apply H1. exists (firstn 57 (steps evening_session)). reflexivity.
  - apply (H2 (firstn 60 (steps evening_session))
             (skipn 61 (steps evening_session))).
    reflexivity.
Defined.
